(** * easy_docker_containers: the process layer of [src/docker.js]

    A shallow embedding of [execCommand], [getContainers],
    [getContainerCount] and [runCommand], with the JavaScript values they
    handle and the GLib/Gio calls they make, followed by the properties of
    the container listing and of the command dispatcher. *)

From stdpp Require Import gmap list strings.
From Stdlib Require Import NArith ZArith Lia Ascii.

#[local] Set Warnings "-register-all".

(** ** JavaScript strings

    A JavaScript string is a sequence of UTF-16 code units.  The literals of
    [docker.js] are all ASCII and are written with [js]. *)

Abbreviation jsstring := (list N).

Definition js (s : string) : jsstring :=
  List.map Ascii.N_of_ascii (String.list_ascii_of_string s).
Arguments js s%_string : simpl never.

Definition LF : N := 10%N.
Definition COMMA : N := 44%N.
Definition SPACE : N := 32%N.

(** The code units removed by [String.prototype.trim]: ECMAScript's
    WhiteSpace and LineTerminator productions (TAB, LF, VT, FF, CR, SP,
    NBSP, the Unicode space separators, LS, PS and the BOM). *)
Definition is_whitespace (c : N) : bool :=
  existsb (N.eqb c)
    [9; 10; 11; 12; 13; 32; 160; 5760; 8232; 8233; 8239; 8287; 12288; 65279]%N
  || (N.leb 8192 c && N.leb c 8202).

Fixpoint trimStart (s : jsstring) : jsstring :=
  match s with
  | [] => []
  | c :: r => if is_whitespace c then trimStart r else s
  end.

Definition trimEnd (s : jsstring) : jsstring := rev (trimStart (rev s)).

(** [s.trim()] *)
Definition trim (s : jsstring) : jsstring := trimEnd (trimStart s).

(** [s.split(sep)] for a separator of one code unit, the only kind
    [docker.js] uses. The result is never empty: [split] of the empty string
    is the list holding the empty string. *)
Fixpoint split (sep : N) (s : jsstring) : list jsstring :=
  match s with
  | [] => [[]]
  | c :: r =>
      if N.eqb c sep then [] :: split sep r
      else match split sep r with
           | [] => [[c]]
           | h :: t => (c :: h) :: t
           end
  end.

(** [l.join(sep)] on an array of strings. *)
Fixpoint join (sep : jsstring) (l : list jsstring) : jsstring :=
  match l with
  | [] => []
  | [x] => x
  | x :: r => x ++ sep ++ join sep r
  end.

(** A string is truthy exactly when it is not empty. *)
Definition nonempty (s : jsstring) : bool :=
  match s with [] => false | _ => true end.

(** [haystack.includes(needle)], used to state what a message mentions. *)
Fixpoint starts_with (p s : jsstring) : bool :=
  match p, s with
  | [], _ => true
  | _ :: _, [] => false
  | a :: p', b :: s' => N.eqb a b && starts_with p' s'
  end.

Fixpoint includes (needle s : jsstring) : bool :=
  starts_with needle s ||
  match s with
  | [] => false
  | _ :: r => includes needle r
  end.

(** The line of a listing has a character that is not white space. *)
Definition has_visible (s : jsstring) : bool :=
  existsb (fun c => negb (is_whitespace c)) s.


(** ** JavaScript values, errors and completions *)

Inductive JSError :=
| SpawnError (message : jsstring)
    (* thrown by [proc.init]: the program could not be launched *)
| GError (message : jsstring)
    (* thrown by another GLib or Gio call *)
| IOErrorEnum (code : Z) (message : jsstring)
    (* built by [execCommand] itself *)
| TypeError
| SyntaxError.

(** What evaluating an expression gives: a value, or a thrown error. *)
Inductive Completion (A : Type) :=
| Normal (a : A)
| Throw (e : JSError).
Arguments Normal {A} a.
Arguments Throw {A} e.

#[global] Instance Completion_ret : MRet Completion := fun _ a => Normal a.
#[global] Instance Completion_bind : MBind Completion := fun _ _ f c =>
  match c with
  | Normal a => f a
  | Throw e => Throw e
  end.

(** A number is kept as the decimal its text denotes,
    [(-1)^negative * digits * 10^exp10]: the code never computes with
    numbers, it only tests them for truth. Objects are finite maps from
    property names to values. *)
Inductive JSValue :=
| JUndefined
| JNull
| JBool (b : bool)
| JNum (negative : bool) (digits : N) (exp10 : Z)
| JStr (s : jsstring)
| JArr (elems : list JSValue)
| JObj (props : gmap jsstring JSValue).

Abbreviation JSObject := (gmap jsstring JSValue).

(** A decimal is a non-zero double unless it rounds to zero, which it does
    when it is at most [2^-1075], half the smallest subnormal. *)
Definition number_is_nonzero (digits : N) (exp10 : Z) : bool :=
  negb (N.eqb digits 0) &&
  (Z.leb 0 exp10 || Z.ltb (10 ^ (- exp10)) (Z.of_N digits * 2 ^ 1075))%Z.

Definition ToBoolean (v : JSValue) : bool :=
  match v with
  | JUndefined | JNull => false
  | JBool b => b
  | JNum _ d e => number_is_nonzero d e
  | JStr s => nonempty s
  | JArr _ | JObj _ => true
  end.

(** [v[key]] for a key that is neither an array index, nor [length], nor a
    property of a built-in prototype; the four label keys are such keys.
    Reading a property of [null] or [undefined] throws. *)
Definition get (v : JSValue) (key : jsstring) : Completion JSValue :=
  match v with
  | JUndefined | JNull => Throw TypeError
  | JObj props => Normal (default JUndefined (props !! key))
  | _ => Normal JUndefined
  end.

(** [{...target, ...source}]: own properties of [source] are copied over
    those of [target]. *)
Definition spread (target source : JSObject) : JSObject := source ∪ target.

(** ** [JSON.parse]

    The grammar of ECMA-404. Nested values are parsed with fuel; a text of
    length [n] never needs more than [n + 1] (lemma [JSON_parse_fuel]). *)

Definition ch (a : Ascii.ascii) : N := Ascii.N_of_ascii a.
Arguments ch a%_char : simpl never.

(** The double quote and the backslash. *)
Definition QUOTE : N := 34%N.
Definition BACKSLASH : N := 92%N.

Definition is_json_ws (c : N) : bool :=
  existsb (N.eqb c) [9; 10; 13; 32]%N.

Fixpoint skip_ws (s : jsstring) : jsstring :=
  match s with
  | [] => []
  | c :: r => if is_json_ws c then skip_ws r else s
  end.

Definition is_digit (c : N) : bool := N.leb 48 c && N.leb c 57.

Definition hex_value (c : N) : option N :=
  if is_digit c then Some (c - 48)%N
  else if N.leb 97 c && N.leb c 102 then Some (c - 87)%N
  else if N.leb 65 c && N.leb c 70 then Some (c - 55)%N
  else None.

(** The character a one-letter escape stands for. *)
Definition unescape (c : N) : option N :=
  if N.eqb c QUOTE then Some QUOTE
  else if N.eqb c BACKSLASH then Some BACKSLASH
  else if N.eqb c (ch "/") then Some (ch "/")
  else if N.eqb c (ch "b") then Some 8%N
  else if N.eqb c (ch "f") then Some 12%N
  else if N.eqb c (ch "n") then Some 10%N
  else if N.eqb c (ch "r") then Some 13%N
  else if N.eqb c (ch "t") then Some 9%N
  else None.

(** The characters of a string literal after its opening quote, up to and
    including the closing quote. *)
Fixpoint parse_chars (s acc : jsstring) : option (jsstring * jsstring) :=
  match s with
  | [] => None
  | c :: r =>
      if N.eqb c QUOTE then Some (rev acc, r)
      else if N.eqb c BACKSLASH then
        match r with
        | [] => None
        | e :: r1 =>
            if N.eqb e (ch "u") then
              match r1 with
              | h1 :: h2 :: h3 :: h4 :: r2 =>
                  match hex_value h1, hex_value h2,
                        hex_value h3, hex_value h4 with
                  | Some a, Some b, Some c', Some d =>
                      parse_chars r2
                        ((((a * 16 + b) * 16 + c') * 16 + d)%N :: acc)
                  | _, _, _, _ => None
                  end
              | _ => None
              end
            else
              match unescape e with
              | Some u => parse_chars r1 (u :: acc)
              | None => None
              end
        end
      else if N.ltb c 32 then None
      else parse_chars r (c :: acc)
  end.

Fixpoint take_digits (s : jsstring) : jsstring * jsstring :=
  match s with
  | [] => ([], [])
  | c :: r =>
      if is_digit c then
        let (ds, rest) := take_digits r in (c :: ds, rest)
      else ([], s)
  end.

Definition digits_value (ds : jsstring) : N :=
  fold_left (fun a c => (a * 10 + (c - 48))%N) ds 0%N.

Definition parse_sign (s : jsstring) : bool * jsstring :=
  match s with
  | c :: r => if N.eqb c (ch "-") then (true, r) else (false, s)
  | [] => (false, s)
  end.

(** The exponent part of a number, [0] when there is none. *)
Definition parse_exponent (s : jsstring) : option (Z * jsstring) :=
  match s with
  | c :: r =>
      if N.eqb c (ch "e") || N.eqb c (ch "E") then
        let '(neg, r1) :=
          match r with
          | d :: r' =>
              if N.eqb d (ch "-") then (true, r')
              else if N.eqb d (ch "+") then (false, r')
              else (false, r)
          | [] => (false, r)
          end in
        match take_digits r1 with
        | ([], _) => None
        | (ds, rest) =>
            let e := Z.of_N (digits_value ds) in
            Some (if neg then (- e)%Z else e, rest)
        end
      else Some (0%Z, s)
  | [] => Some (0%Z, s)
  end.

Definition parse_fraction (s : jsstring) : option (jsstring * jsstring) :=
  match s with
  | c :: r =>
      if N.eqb c (ch ".") then
        match take_digits r with
        | ([], _) => None
        | (ds, rest) => Some (ds, rest)
        end
      else Some ([], s)
  | [] => Some ([], s)
  end.

(** An integer part of several digits must not start with a zero. *)
Definition leading_zero (ds : jsstring) : bool :=
  match ds with
  | d :: _ :: _ => N.eqb d (ch "0")
  | _ => false
  end.

Definition parse_number (s : jsstring) : option (JSValue * jsstring) :=
  let (neg, s1) := parse_sign s in
  match take_digits s1 with
  | ([], _) => None
  | (whole, s2) =>
      if leading_zero whole then None
      else
        match parse_fraction s2 with
        | None => None
        | Some (frac, s3) =>
            match parse_exponent s3 with
            | None => None
            | Some (e, s4) =>
                Some (JNum neg (digits_value (whole ++ frac))
                        (e - Z.of_nat (length frac))%Z, s4)
            end
        end
  end.

Fixpoint strip_prefix (p s : jsstring) : option jsstring :=
  match p, s with
  | [], _ => Some s
  | _ :: _, [] => None
  | a :: p', b :: s' => if N.eqb a b then strip_prefix p' s' else None
  end.

Inductive Parsed (A : Type) :=
| Done (a : A) (rest : jsstring)
| Malformed
| OutOfFuel.
Arguments Done {A} a rest.
Arguments Malformed {A}.
Arguments OutOfFuel {A}.

(** The elements of an array after its opening bracket, which is known not
    to be followed by the closing one. *)
Fixpoint parse_elements (value : jsstring -> Parsed JSValue) (fuel : nat)
    (s : jsstring) (acc : list JSValue) : Parsed JSValue :=
  match fuel with
  | O => OutOfFuel
  | S fuel' =>
      match value s with
      | Done v r =>
          match skip_ws r with
          | c :: r' =>
              if N.eqb c (ch ",") then parse_elements value fuel' r' (v :: acc)
              else if N.eqb c (ch "]") then Done (JArr (rev (v :: acc))) r'
              else Malformed
          | [] => Malformed
          end
      | Malformed => Malformed
      | OutOfFuel => OutOfFuel
      end
  end.

(** The members of an object after its opening brace. A name that occurs
    twice keeps its last value. *)
Fixpoint parse_members (value : jsstring -> Parsed JSValue) (fuel : nat)
    (s : jsstring) (acc : JSObject) : Parsed JSValue :=
  match fuel with
  | O => OutOfFuel
  | S fuel' =>
      match skip_ws s with
      | c :: r =>
          if N.eqb c QUOTE then
            match parse_chars r [] with
            | Some (key, r1) =>
                match skip_ws r1 with
                | c1 :: r2 =>
                    if N.eqb c1 (ch ":") then
                      match value r2 with
                      | Done v r3 =>
                          match skip_ws r3 with
                          | c3 :: r4 =>
                              if N.eqb c3 (ch ",") then
                                parse_members value fuel' r4 (<[key:=v]> acc)
                              else if N.eqb c3 (ch "}") then
                                Done (JObj (<[key:=v]> acc)) r4
                              else Malformed
                          | [] => Malformed
                          end
                      | Malformed => Malformed
                      | OutOfFuel => OutOfFuel
                      end
                    else Malformed
                | [] => Malformed
                end
            | None => Malformed
            end
          else Malformed
      | [] => Malformed
      end
  end.

Definition of_option {A} (o : option (A * jsstring)) : Parsed A :=
  match o with
  | Some (a, r) => Done a r
  | None => Malformed
  end.

Fixpoint parse_value (fuel : nat) (s : jsstring) : Parsed JSValue :=
  match fuel with
  | O => OutOfFuel
  | S fuel' =>
      match skip_ws s with
      | [] => Malformed
      | c :: r =>
          if N.eqb c (ch "n") then
            of_option (pair JNull <$> strip_prefix (js "ull") r)
          else if N.eqb c (ch "t") then
            of_option (pair (JBool true) <$> strip_prefix (js "rue") r)
          else if N.eqb c (ch "f") then
            of_option (pair (JBool false) <$> strip_prefix (js "alse") r)
          else if N.eqb c QUOTE then
            of_option (prod_map JStr id <$> parse_chars r [])
          else if N.eqb c (ch "[") then
            match skip_ws r with
            | c' :: r' =>
                if N.eqb c' (ch "]") then Done (JArr []) r'
                else parse_elements (parse_value fuel') fuel' r []
            | [] => Malformed
            end
          else if N.eqb c (ch "{") then
            match skip_ws r with
            | c' :: r' =>
                if N.eqb c' (ch "}") then Done (JObj ∅) r'
                else parse_members (parse_value fuel') fuel' r ∅
            | [] => Malformed
            end
          else of_option (parse_number (c :: r))
      end
  end.

(** [JSON.parse(text)]: one value, white space around it, nothing else. *)
Definition JSON_parse (text : jsstring) : Completion JSValue :=
  match parse_value (S (length text)) text with
  | Done v rest =>
      match skip_ws rest with
      | [] => Normal v
      | _ :: _ => Throw SyntaxError
      end
  | Malformed | OutOfFuel => Throw SyntaxError
  end.

(** ** The host: GLib, Gio and the processes they launch *)

(** A command as [runCommand] receives it: an action id, or an array whose
    first element is the action id and whose other elements are extra
    arguments. *)
Inductive Command :=
| CmdString (s : jsstring)
| CmdArray (l : list jsstring).

(** A completion callback is known by a number. *)
Definition Callback : Type := nat.

(** What a [Gio.Subprocess] does once it is set up. [ok] is the first
    component of what [communicate_utf8_finish] returns and [exit_status]
    what [get_exit_status] returns; GLib sets [ok] when the pipes were read
    to their end, whatever the status the child exits with. *)
Inductive Subprocess :=
| InitThrows (message : jsstring)
| NeverExits
| FinishThrows (message : jsstring)
| Communicated (ok : bool) (stdout stderr : jsstring) (exit_status : Z).

Record World := {
  (** [!!GLib.find_program_in_path(name)] *)
  find_program_in_path : jsstring -> bool;
  (** the subprocess launched after [n] others, by its argv *)
  subprocess : nat -> list jsstring -> Subprocess;
  (** the time at which that subprocess hands over its output *)
  settles_at : nat -> nat;
  (** [GLib.spawn_command_line_async(line)]: the message of the error it
      throws, if it throws *)
  spawn_command_line_async : jsstring -> option jsstring;
  io_error_from_errno : Z -> Z;
  strerror : Z -> jsstring
}.

(** What the code does to the outside, in the order it does it. *)
Inductive Event :=
| EvFindProgram (program : jsstring)
| EvSubprocess (argv : list jsstring)
| EvSpawnAsync (line : jsstring)
| EvCallback (callback : Callback) (ok : bool) (command : Command)
    (output : jsstring)
| EvLogError (e : JSError).

Record State := {
  launched : nat;
  trace : list Event
}.

Definition init : State := {| launched := 0; trace := [] |}.

Definition emit (evs : list Event) (st : State) : State :=
  {| launched := launched st; trace := trace st ++ evs |}.

(** An event that runs an external program. *)
Definition is_execution (ev : Event) : bool :=
  match ev with
  | EvSubprocess _ | EvSpawnAsync _ => true
  | _ => false
  end.

(** The argument vectors of the subprocesses of a trace. *)
Definition subprocesses (evs : list Event) : list (list jsstring) :=
  omap (fun ev => match ev with EvSubprocess argv => Some argv | _ => None end)
    evs.

(** The completion callbacks of a trace, with their arguments. *)
Definition callbacks (evs : list Event)
  : list (Callback * bool * Command * jsstring) :=
  omap (fun ev =>
          match ev with
          | EvCallback f ok c out => Some (f, ok, c, out)
          | _ => None
          end) evs.

(** ** Asynchronous functions

    The result of an [async] function: its promise is fulfilled, is
    rejected, or stays pending for ever. *)
Inductive Outcome (A : Type) :=
| Resolved (a : A)
| Rejected (e : JSError)
| Pending.
Arguments Resolved {A} a.
Arguments Rejected {A} e.
Arguments Pending {A}.

(** The body of an [async] function, run to its end: the outcome of its
    promise and everything it did. *)
Definition Async (A : Type) : Type := State -> Outcome A * State.

#[global] Instance Async_ret : MRet Async := fun _ a st => (Resolved a, st).
#[global] Instance Async_bind : MBind Async := fun _ _ f m st =>
  match m st with
  | (Resolved a, st') => f a st'
  | (Rejected e, st') => (Rejected e, st')
  | (Pending, st') => (Pending, st')
  end.

Definition throw {A} (e : JSError) : Async A := fun st => (Rejected e, st).

Definition tell (evs : list Event) : Async unit := fun st =>
  (Resolved tt, emit evs st).

(** A synchronous expression inside an [async] function. *)
Definition lift {A} (c : Completion A) : Async A :=
  match c with
  | Normal a => mret a
  | Throw e => throw e
  end.

(** A promise handed out by [execCommand]: how it settles, when ([None]
    when it is settled from the start), and what runs as it settles. *)
Record Promise := {
  settled : Outcome jsstring;
  settle_time : option nat;
  on_settle : list Event
}.

(** [await p] *)
Definition await (p : Promise) : Async jsstring := fun st =>
  (settled p, emit (on_settle p) st).

(** [await f(...)] for a function [f] that returns a promise. *)
Definition call (f : State -> Promise * State) : Async jsstring := fun st =>
  let (p, st') := f st in await p st'.

Definition rank (p : Promise) : nat :=
  match settle_time p with
  | None => 0
  | Some t => S t
  end.

Fixpoint insert_by_rank (p : Promise) (l : list Promise) : list Promise :=
  match l with
  | [] => [p]
  | q :: r => if rank p <=? rank q then p :: l else q :: insert_by_rank p r
  end.

Definition is_pending (p : Promise) : bool :=
  match settled p with
  | Pending => true
  | _ => false
  end.

(** The promises that settle, in the order in which they do; promises that
    settle together keep the order of the array. *)
Definition completion_order (ps : list Promise) : list Promise :=
  foldr insert_by_rank [] (List.filter (fun p => negb (is_pending p)) ps).

Fixpoint first_rejection (ps : list Promise) : option JSError :=
  match ps with
  | [] => None
  | p :: r =>
      match settled p with
      | Rejected e => Some e
      | _ => first_rejection r
      end
  end.

Fixpoint all_resolved (ps : list Promise) : option (list jsstring) :=
  match ps with
  | [] => Some []
  | p :: r =>
      match settled p, all_resolved r with
      | Resolved v, Some vs => Some (v :: vs)
      | _, _ => None
      end
  end.

(** [await Promise.all(ps)]: rejected with the first rejection in time;
    otherwise fulfilled with the values in the order of [ps] once all are
    there. The trace holds what every promise does as it settles, also
    after a rejection. *)
Definition await_all (ps : list Promise) : Async (list jsstring) := fun st =>
  let finished := completion_order ps in
  let st' := emit (concat (List.map on_settle finished)) st in
  match first_rejection finished with
  | Some e => (Rejected e, st')
  | None =>
      match all_resolved ps with
      | Some vs => (Resolved vs, st')
      | None => (Pending, st')
      end
  end.

(** [items.map(f)] for an [f] that launches something: left to right. *)
Fixpoint launch_each {A} (f : A -> State -> Promise * State) (items : list A)
    (st : State) : list Promise * State :=
  match items with
  | [] => ([], st)
  | x :: r =>
      let (p, st1) := f x st in
      let (ps, st2) := launch_each f r st1 in
      (p :: ps, st2)
  end.

(** ** [execCommand]

    Callers never pass [cancellable]; it is [null] throughout. The part up
    to [proc.init] runs at once; the callback of [communicate_utf8_async]
    runs when the promise settles. The completion callback is taken to
    return normally. *)
Definition execCommand (w : World) (argv : list jsstring)
    (callback : option Callback) (st : State) : Promise * State :=
  let n := launched st in
  let st1 := {| launched := S n; trace := trace st ++ [EvSubprocess argv] |} in
  match subprocess w n argv with
  | InitThrows message =>
      let e := SpawnError message in
      ({| settled := Rejected e; settle_time := None; on_settle := [] |},
       emit [EvLogError e] st1)
  | NeverExits =>
      ({| settled := Pending; settle_time := None; on_settle := [] |}, st1)
  | FinishThrows message =>
      let e := GError message in
      ({| settled := Rejected e;
          settle_time := Some (settles_at w n);
          on_settle := [EvLogError e] |}, st1)
  | Communicated ok stdout stderr exit_status =>
      let called :=
        match callback with
        | Some f =>
            [EvCallback f ok (CmdString (join (js " ") argv))
               (if ok then stdout else stderr)]
        | None => []
        end in
      if ok then
        ({| settled := Resolved stdout;
            settle_time := Some (settles_at w n);
            on_settle := called |}, st1)
      else
        let e :=
          IOErrorEnum (io_error_from_errno w exit_status)
            (if nonempty stderr then trim stderr
             else strerror w exit_status) in
        ({| settled := Rejected e;
            settle_time := Some (settles_at w n);
            on_settle := called ++ [EvLogError e] |}, st1)
  end.

(** ** [getContainers] and [getContainerCount] *)

Definition COMPOSE_PREFIX : jsstring := js "com.docker.compose".

(** The two fields of a line of the listing. [status] is [undefined] on a
    line without a comma. *)
Record Image := {
  name : jsstring;
  status : option jsstring
}.

(** [const [name, status] = line.split(",")] *)
Definition parse_line (line : jsstring) : Image :=
  match split COMMA line with
  | [] => {| name := []; status := None |}
  | first :: others => {| name := first; status := head others |}
  end.

(** [psOut.split("\n").filter((line) => line.trim().length).map(...)] *)
Definition parse_listing (psOut : jsstring) : list Image :=
  List.map parse_line
    (List.filter (fun line => nonempty (trim line)) (split LF psOut)).

(** The object [{ name, status }]. *)
Definition image_object (image : Image) : JSObject :=
  {[ js "name" := JStr (name image);
     js "status" := from_option JStr JUndefined (status image) ]}.

Definition list_all : list jsstring :=
  [js "docker"; js "ps"; js "-a"; js "--format"; js "{{.Names}},{{.Status}}"].

Definition list_running : list jsstring :=
  [js "docker"; js "ps"; js "--format"; js "{{.Names}},{{.Status}}"].

Definition inspect (container : jsstring) : list jsstring :=
  [js "docker"; js "inspect"; js "-f"; js "{{json .Config.Labels}}";
   container].

(** The record of one container, from the labels [docker inspect] printed
    and the line of the listing at the same index ([images[i]], which
    spreads to nothing when it is [undefined]). *)
Definition container_record (jsonOutput : JSValue) (image : option Image)
  : Completion JSObject :=
  project ← get jsonOutput (COMPOSE_PREFIX ++ js ".project");
  compose ←
    (if ToBoolean project then
       service ← get jsonOutput (COMPOSE_PREFIX ++ js ".service");
       project ← get jsonOutput (COMPOSE_PREFIX ++ js ".project");
       configFiles ←
         get jsonOutput (COMPOSE_PREFIX ++ js ".project.config_files");
       workingDir ←
         get jsonOutput (COMPOSE_PREFIX ++ js ".project.working_dir");
       mret ({[ js "compose" :=
                  JObj {[ js "service" := service;
                          js "project" := project;
                          js "configFiles" := configFiles;
                          js "workingDir" := workingDir ]} ]} : JSObject)
     else mret (∅ : JSObject));
  mret (spread (spread ∅ compose) (from_option image_object ∅ image)).

(** [containersInfo.map((commandOutput, i) => ...)], from index [i] on. *)
Fixpoint build_records (images : list Image) (i : nat)
    (containersInfo : list jsstring) : Completion (list JSObject) :=
  match containersInfo with
  | [] => mret []
  | commandOutput :: rest =>
      jsonOutput ← JSON_parse commandOutput;
      record ← container_record jsonOutput (images !! i);
      records ← build_records images (S i) rest;
      mret (record :: records)
  end.

Definition getContainers (w : World) : Async (list JSObject) :=
  psOut ← call (execCommand w list_all None);
  let images := parse_listing psOut in
  containersInfo ←
    (fun st =>
       let (promises, st') :=
         launch_each (fun image => execCommand w (inspect (name image)) None)
           images st in
       await_all promises st');
  lift (build_records images 0 containersInfo).

Definition getContainerCount (w : World) : Async nat :=
  psOut ← call (execCommand w list_running None);
  let images := parse_listing psOut in
  mret (length images).

(** ** [runCommand] *)

(** [dockerCommandsToLabels]: the action ids of the menu, with their
    labels. *)
Definition dockerCommandsToLabels : list (jsstring * jsstring) :=
  [ (js "start", js "Start");
    (js "restart", js "Restart");
    (js "stop", js "Stop");
    (js "pause", js "Pause");
    (js "unpause", js "Unpause");
    (js "compose start", js "Start (compose)");
    (js "compose restart", js "Restart  (compose)");
    (js "compose stop", js "Stop  (compose)");
    (js "compose pause", js "Pause  (compose)");
    (js "compose unpause", js "Unpause  (compose)");
    (js "exec", js "Exec");
    (js "logs", js "Logs") ].

(** The keys of [validTerminals], in the order the object literal has
    them. *)
Definition terminal_ids : list jsstring :=
  [js "x-terminal-emulator"; js "gnome-terminal"; js "ptyxis"; js "kgx"].

(** The object literal [validTerminals]: one path lookup per key. *)
Fixpoint probe (w : World) (ids : list jsstring)
  : Async (list (jsstring * bool)) :=
  match ids with
  | [] => mret []
  | id :: r =>
      _ ← tell [EvFindProgram id];
      found ← probe w r;
      mret ((id, find_program_in_path w id) :: found)
  end.

(** [validTerminals[id]], as a condition. *)
Fixpoint available (validTerminals : list (jsstring * bool)) (id : jsstring)
  : bool :=
  match validTerminals with
  | [] => false
  | (k, b) :: r => if decide (k = id) then b else available r id
  end.

(** The terminal to run an interactive command in, with the arguments that
    come before the command. *)
Definition terminal_prefix (validTerminals : list (jsstring * bool))
  : option (list jsstring) :=
  if available validTerminals (js "kgx") then Some [js "kgx"; js "-e"]
  else if available validTerminals (js "ptyxis") then
    Some [js "ptyxis"; js "--"; js "sh"; js "-c"]
  else if available validTerminals (js "gnome-terminal") then
    Some [js "gnome-terminal"; js "--"; js "sh"; js "-c"]
  else if available validTerminals (js "x-terminal-emulator") then
    Some [js "x-terminal-emulator"; js "-e"; js "sh"; js "-c"]
  else None.

(** [command[0]]: the first character of a string, the first element of an
    array. *)
Definition first_of (command : Command) : option jsstring :=
  match command with
  | CmdString [] => None
  | CmdString (c :: _) => Some [c]
  | CmdArray l => head l
  end.

(** [[command].flat()] *)
Definition flat (command : Command) : list jsstring :=
  match command with
  | CmdString s => [s]
  | CmdArray l => l
  end.

(** [GLib.spawn_command_line_async(line)] *)
Definition spawn_line (w : World) (line : jsstring) : Async unit :=
  _ ← tell [EvSpawnAsync line];
  match spawn_command_line_async w line with
  | Some message => throw (GError message)
  | None => mret tt
  end.

(** The result is [undefined] ([None]) except on the [default] branch,
    which hands on the promise of [execCommand]. *)
Definition runCommand (w : World) (command : Command)
    (containerName : jsstring) (callback : option Callback)
  : Async (option jsstring) :=
  validTerminals ← probe w terminal_ids;
  match terminal_prefix validTerminals with
  | None =>
      let errMsg :=
        js "No valid terminal found ("
        ++ join (js ", ") (List.map fst validTerminals) ++ js ")" in
      match callback with
      | Some f =>
          _ ← tell [EvCallback f false command errMsg];
          mret None
      | None => throw TypeError
      end
  | Some cmd =>
      if decide (first_of command = Some (js "exec")) then
        let cmd :=
          cmd ++ [js "'docker exec -it " ++ containerName
                  ++ js " sh; exec $SHELL'"] in
        _ ← spawn_line w (join (js " ") cmd);
        mret None
      else if decide (first_of command = Some (js "logs")) then
        let cmd :=
          cmd ++ [js "'docker logs -f --tail 2000 " ++ containerName
                  ++ js "; exec $SHELL' "] in
        _ ← spawn_line w (join (js " ") cmd);
        mret None
      else
        match flat command with
        | [] => throw TypeError
        | commands :: commandArguments =>
            let words := split SPACE commands in
            let dockerCommand1 := default [] (words !! 0) in
            let dockerCommand2 := words !! 1 in
            let cmd :=
              [js "docker"; dockerCommand1] ++ commandArguments
              ++ (match dockerCommand2 with
                  | Some second =>
                      if nonempty second then [second] else [containerName]
                  | None => [containerName]
                  end) in
            stdout ← call (execCommand w cmd callback);
            mret (Some stdout)
        end
  end.

(** ** Hosts to run the code on *)

(** A host with the given programs on its path, on which subprocesses
    behave as [run] says and finish in the order they were launched. *)
Definition host (programs : list jsstring)
    (run : nat -> list jsstring -> Subprocess) : World :=
  {| find_program_in_path := fun p => bool_decide (p ∈ programs);
     subprocess := run;
     settles_at := fun n => n;
     spawn_command_line_async := fun _ => None;
     io_error_from_errno := fun _ => 0%Z;
     strerror := fun _ => js "Unknown error" |}.

(** The same host, with subprocesses finishing at other times. *)
Definition reschedule (times : nat -> nat) (w : World) : World :=
  {| find_program_in_path := find_program_in_path w;
     subprocess := subprocess w;
     settles_at := times;
     spawn_command_line_async := spawn_command_line_async w;
     io_error_from_errno := io_error_from_errno w;
     strerror := strerror w |}.

(** A run of [docker] that prints [stdout] and exits with status 0. *)
Definition prints (stdout : jsstring) : Subprocess :=
  Communicated true stdout [] 0.

(** The host of a listing: the first subprocess prints [psOut], every later
    one prints the labels [labels] gives for the container it inspects. *)
Definition docker_host (psOut : jsstring) (labels : jsstring -> jsstring)
  : World :=
  host [js "docker"; js "kgx"]
    (fun n argv =>
       match n with
       | O => prints psOut
       | S _ => prints (labels (List.last argv []))
       end).

(** ** Vocabulary of the statements *)

(** What a subprocess printed, when [communicate_utf8_finish] reports
    success. *)
Definition stdout_of (b : Subprocess) : option jsstring :=
  match b with
  | Communicated true stdout _ _ => Some stdout
  | _ => None
  end.

(** The name and the status the listing takes from a line: the text before
    the first comma, and the text between the first comma and the second,
    or the end of the line; no status on a line without a comma. *)
Inductive line_fields : jsstring -> jsstring -> JSValue -> Prop :=
| fields_no_comma line :
    COMMA ∉ line -> line_fields line line JUndefined
| fields_one_comma n s :
    COMMA ∉ n -> COMMA ∉ s -> line_fields (n ++ COMMA :: s) n (JStr s)
| fields_more_commas n s rest :
    COMMA ∉ n -> COMMA ∉ s ->
    line_fields (n ++ COMMA :: s ++ COMMA :: rest) n (JStr s).

(** The labels of a container as [docker inspect] prints them when there
    are some: an object whose values are strings. *)
Definition label_map (labels : gmap jsstring jsstring) : JSValue :=
  JObj (JStr <$> labels).

(** What the inspect calls of a listing print, in the order of the
    listing; the subprocess of index [i] is launched after the listing and
    after [i] other inspect calls. *)
Definition inspect_outputs (w : World) (images : list Image)
  : list (option jsstring) :=
  imap (fun i image => stdout_of (subprocess w (S i) (inspect (name image))))
    images.

(** The property [key] of a value that is neither [null] nor
    [undefined]. *)
Definition property (v : JSValue) (key : jsstring) : JSValue :=
  match v with
  | JObj props => default JUndefined (props !! key)
  | _ => JUndefined
  end.

(** The [compose] sub-record the labels [v] give. *)
Definition compose_of (v : JSValue) : JSValue :=
  JObj {[ js "service" := property v (COMPOSE_PREFIX ++ js ".service");
          js "project" := property v (COMPOSE_PREFIX ++ js ".project");
          js "configFiles" :=
            property v (COMPOSE_PREFIX ++ js ".project.config_files");
          js "workingDir" :=
            property v (COMPOSE_PREFIX ++ js ".project.working_dir") ]}.

(** The record of a container with labels [v]: the two fields of its line,
    and a [compose] key exactly when the project label is truthy. *)
Definition record_of (v : JSValue) (image : Image) : JSObject :=
  if ToBoolean (property v (COMPOSE_PREFIX ++ js ".project")) then
    {[ js "name" := JStr (name image);
       js "status" := from_option JStr JUndefined (status image);
       js "compose" := compose_of v ]}
  else
    {[ js "name" := JStr (name image);
       js "status" := from_option JStr JUndefined (status image) ]}.

(** An inspect output the listing can use: JSON, and not [null]. *)
Definition usable_labels (out : jsstring) : Prop :=
  exists v, JSON_parse out = Normal v /\ v <> JNull.

(** A parser for values that always takes at least one character. *)
Definition consumes (value : jsstring -> Parsed JSValue) : Prop :=
  forall s v r, value s = Done v r -> length r < length s.

(** A promise that is fulfilled with [out] and does nothing else. *)
Definition quietly_resolved (p : Promise) (out : jsstring) : Prop :=
  settled p = Resolved out /\ on_settle p = [].

(** A string between double quotes. *)
Definition quoted (s : jsstring) : jsstring := QUOTE :: s ++ [QUOTE].

(** The line [docker inspect] prints for labels that need no escaping. *)
Definition labels_text (labels : list (jsstring * jsstring)) : jsstring :=
  js "{"
  ++ join (js ",")
       (List.map (fun kv => quoted (fst kv) ++ js ":" ++ quoted (snd kv))
          labels)
  ++ js "}" ++ [LF].

(** The action id of a command: the command itself, or the first element
    of the array. *)
Definition action_id (command : Command) : option jsstring :=
  head (flat command).

(** The programs a trace looked up on the path. *)
Definition probed (evs : list Event) : list jsstring :=
  omap (fun ev => match ev with EvFindProgram p => Some p | _ => None end) evs.

(** What [validTerminals] holds on the host [w]. *)
Definition valid_terminals (w : World) : list (jsstring * bool) :=
  List.map (fun id => (id, find_program_in_path w id)) terminal_ids.

(** The message of [runCommand] when no terminal is found. *)
Definition no_terminal_message : jsstring :=
  js "No valid terminal found ("
  ++ js "x-terminal-emulator, gnome-terminal, ptyxis, kgx" ++ js ")".

(** An asynchronous step that only adds to the trace. *)
Definition extends {A} (m : Async A) : Prop :=
  forall st, exists evs, trace (snd (m st)) = trace st ++ evs.

(** ** The probes of the runtime *)

(** [hasDocker] and [hasPodman] *)
Definition hasDocker (w : World) : bool :=
  find_program_in_path w (js "docker").

Definition hasPodman (w : World) : bool :=
  find_program_in_path w (js "podman").

(** [s.search(/needle/)] for a pattern that is plain text: the index of the
    first occurrence of [needle] in [s], or -1. *)
Fixpoint search (needle s : jsstring) : Z :=
  if starts_with needle s then 0%Z
  else
    match s with
    | [] => (-1)%Z
    | _ :: r =>
        let i := search needle r in
        if Z.ltb i 0 then (-1)%Z else (i + 1)%Z
    end.

Definition isDockerRunning (w : World) : Async bool :=
  cmdResult ← call (execCommand w [js "/bin/ps"; js "cax"] None);
  mret (Z.leb 0 (search (js "dockerd") cmdResult)).

(** What the module asks GLib for when it is loaded: the user name, and
    the standard output of a command line run with
    [GLib.spawn_command_line_sync], as [GLib.ByteArray.toString] reads it;
    running the command line may throw. *)
Record Session := {
  get_user_name : jsstring;
  spawn_command_line_sync : jsstring -> Completion jsstring
}.

(** The pattern [\sdocker[\s\n]] matches at the start of [s]. The class
    [\s] holds the characters [trim] removes, the line feed among them. *)
Definition docker_group_here (s : jsstring) : bool :=
  match s with
  | [] => false
  | c :: r =>
      is_whitespace c &&
      match strip_prefix (js "docker") r with
      | Some (d :: _) => is_whitespace d
      | _ => false
      end
  end.

(** [s.match(/\sdocker[\s\n]/g)] is not [null]: the pattern matches
    somewhere in [s]. *)
Fixpoint matches_docker_group (s : jsstring) : bool :=
  docker_group_here s ||
  match s with
  | [] => false
  | _ :: r => matches_docker_group r
  end.

(** [isUserInDockerGroup], the value the module computes when it is
    loaded. *)
Definition isUserInDockerGroup (ses : Session) : Completion bool :=
  _userGroups ←
    spawn_command_line_sync ses (js "groups " ++ get_user_name ses);
  mret (matches_docker_group _userGroups).

(** ** More vocabulary *)

(** The command lines of a trace. *)
Definition spawned (evs : list Event) : list jsstring :=
  omap (fun ev => match ev with EvSpawnAsync line => Some line | _ => None end)
    evs.

(** The errors a trace logged. *)
Definition logged (evs : list Event) : list JSError :=
  omap (fun ev => match ev with EvLogError e => Some e | _ => None end) evs.

(** The subprocess ends in an error: it cannot be launched, reading its
    output throws, or [communicate_utf8_finish] returns [ok = false]. *)
Definition fails (b : Subprocess) : bool :=
  match b with
  | InitThrows _ | FinishThrows _ | Communicated false _ _ _ => true
  | _ => false
  end.

(** The terminals in the order [runCommand] prefers them, each with the
    words it puts before the command. *)
Definition terminal_preference : list (jsstring * list jsstring) :=
  [ (js "kgx", [js "kgx"; js "-e"]);
    (js "ptyxis", [js "ptyxis"; js "--"; js "sh"; js "-c"]);
    (js "gnome-terminal", [js "gnome-terminal"; js "--"; js "sh"; js "-c"]);
    (js "x-terminal-emulator",
     [js "x-terminal-emulator"; js "-e"; js "sh"; js "-c"]) ].

(** The words of the first terminal of that order found on the path. *)
Definition first_available (w : World) : option (list jsstring) :=
  snd <$> List.find (fun t => find_program_in_path w (fst t))
            terminal_preference.

(** The promise [execCommand] hands out for the subprocess launched after
    [n] others. *)
Definition promise_of (w : World) (n : nat) (argv : list jsstring)
    (callback : option Callback) : Promise :=
  fst (execCommand w argv callback {| launched := n; trace := [] |}).

(** What [execCommand] logs before it returns. *)
Definition logged_at_once (w : World) (n : nat) (argv : list jsstring)
  : list Event :=
  match subprocess w n argv with
  | InitThrows message => [EvLogError (SpawnError message)]
  | _ => []
  end.

(** A word: no white space in it. *)
Definition word (t : jsstring) : Prop :=
  Forall (fun c => is_whitespace c = false) t.

(** A session in which [groups] prints [output]. *)
Definition session (user output : jsstring) : Session :=
  {| get_user_name := user;
     spawn_command_line_sync := fun _ => Normal output |}.


(** The state [runCommand] is in once it has looked the four terminals
    up. *)
Definition looked_up : State :=
  {| launched := 0; trace := List.map EvFindProgram terminal_ids |}.

(** The result of [runCommand] when it hands on the promise of
    [execCommand]. *)
Definition handed_on (o : Outcome jsstring) : Outcome (option jsstring) :=
  match o with
  | Resolved stdout => Resolved (Some stdout)
  | Rejected e => Rejected e
  | Pending => Pending
  end.

(** The argument vector of the [default] branch of [runCommand]. *)
Definition docker_words (commands : jsstring)
    (commandArguments : list jsstring) (containerName : jsstring)
  : list jsstring :=
  [js "docker"; default [] (split SPACE commands !! 0)] ++ commandArguments
  ++ match split SPACE commands !! 1 with
     | Some second => if nonempty second then [second] else [containerName]
     | None => [containerName]
     end.

(** * Properties

    First the facts about strings, [JSON.parse], promises and records that
    the statements rest on, then the statements themselves. *)

(** ** Strings *)

Lemma trimStart_nil_iff s :
  trimStart s = [] <-> forallb is_whitespace s = true.
Proof.
  induction s as [|c r IH]; simpl; [tauto|].
  destruct (is_whitespace c); simpl; [exact IH|].
  split; intros H; discriminate H.
Qed.

Lemma trimStart_head s c r :
  trimStart s = c :: r -> is_whitespace c = false.
Proof.
  induction s as [|d t IH]; simpl; [discriminate|].
  destruct (is_whitespace d) eqn:E; [exact IH|].
  intros [= -> _]. exact E.
Qed.

Lemma has_visible_forallb s :
  has_visible s = negb (forallb is_whitespace s).
Proof.
  unfold has_visible.
  induction s as [|c r IH]; simpl; [reflexivity|].
  rewrite IH. destruct (is_whitespace c); reflexivity.
Qed.

Lemma forallb_rev_ws s :
  forallb is_whitespace (rev s) = forallb is_whitespace s.
Proof.
  induction s as [|c r IH]; simpl; [reflexivity|].
  rewrite forallb_app, IH. simpl.
  rewrite andb_true_r. apply andb_comm.
Qed.

(** The filter of the listing, [line.trim().length], keeps exactly the
    lines that have a character which is not white space. *)
Lemma trim_keeps_visible s :
  nonempty (trim s) = has_visible s.
Proof.
  rewrite has_visible_forallb. unfold trim, trimEnd.
  destruct (trimStart s) as [|c r] eqn:E.
  - apply trimStart_nil_iff in E. rewrite E. reflexivity.
  - assert (Hc : is_whitespace c = false) by (eapply trimStart_head; eauto).
    assert (Hs : forallb is_whitespace s = false).
    { destruct (forallb is_whitespace s) eqn:F; [|reflexivity].
      apply trimStart_nil_iff in F. congruence. }
    rewrite Hs. simpl.
    destruct (trimStart (rev r ++ [c])) as [|d t] eqn:F.
    + apply trimStart_nil_iff in F. rewrite forallb_app in F. simpl in F.
      rewrite Hc, andb_false_r in F. discriminate.
    + simpl. destruct (rev t); reflexivity.
Qed.

Lemma split_not_nil sep s : split sep s <> [].
Proof.
  destruct s as [|c r]; simpl; [discriminate|].
  destruct (N.eqb c sep); [discriminate|].
  destruct (split sep r); discriminate.
Qed.

(** Splitting undoes joining on a separator the pieces do not contain. *)
Lemma split_join sep ls :
  ls <> [] -> Forall (fun l => sep ∉ l) ls ->
  split sep (join [sep] ls) = ls.
Proof.
  induction ls as [|l ls IH]; [congruence|]. intros _ H.
  apply Forall_cons in H as [Hl Hls].
  destruct ls as [|l' ls].
  - simpl. clear IH Hls.
    induction l as [|c r IHr]; simpl; [reflexivity|].
    apply not_elem_of_cons in Hl as [Hc Hr].
    destruct (N.eqb_spec c sep) as [->|_]; [congruence|].
    rewrite (IHr Hr). reflexivity.
  - specialize (IH ltac:(discriminate) Hls).
    change (join [sep] (l :: l' :: ls))
      with (l ++ sep :: join [sep] (l' :: ls)).
    remember (join [sep] (l' :: ls)) as rest eqn:Hrest. clear Hrest.
    induction l as [|c r IHr]; simpl.
    + rewrite N.eqb_refl, IH. reflexivity.
    + apply not_elem_of_cons in Hl as [Hc Hr].
      destruct (N.eqb_spec c sep) as [->|_]; [congruence|].
      rewrite (IHr Hr). reflexivity.
Qed.

(** Every string is the join of its pieces, and no piece holds the
    separator: [split] loses nothing. *)
Lemma join_split sep s :
  join [sep] (split sep s) = s /\ Forall (fun l => sep ∉ l) (split sep s).
Proof.
  induction s as [|c r [IHj IHf]]; simpl.
  - split; [reflexivity|]. repeat constructor. apply not_elem_of_nil.
  - destruct (N.eqb_spec c sep) as [->|Hne].
    + split.
      * pose proof (split_not_nil sep r) as Hn.
        destruct (split sep r) eqn:E; [congruence|].
        simpl in *. rewrite IHj. reflexivity.
      * constructor; [apply not_elem_of_nil|exact IHf].
    + destruct (split sep r) as [|h t] eqn:E.
      * exfalso. eapply split_not_nil; eauto.
      * apply Forall_cons in IHf as [Hh Ht]. split.
        -- destruct t; simpl in *; rewrite <- IHj; reflexivity.
        -- constructor; [|exact Ht].
           apply not_elem_of_cons. split; [congruence|exact Hh].
Qed.

(** ** [JSON.parse] never stops for lack of fuel *)

Lemma skip_ws_length s : length (skip_ws s) <= length s.
Proof.
  induction s as [|c r IH]; simpl; [lia|].
  destruct (is_json_ws c); simpl; lia.
Qed.

Lemma skip_ws_cons s c r : skip_ws s = c :: r -> length r < length s.
Proof.
  intros H. pose proof (skip_ws_length s) as L.
  rewrite H in L. simpl in L. lia.
Qed.

Lemma parse_chars_length_aux n : forall s acc str r,
  length s <= n -> parse_chars s acc = Some (str, r) -> length r < length s.
Proof.
  induction n as [|n IH]; intros s acc str r Hn.
  { destruct s; [discriminate|simpl in Hn; lia]. }
  destruct s as [|c s]; simpl; [discriminate|]. simpl in Hn.
  destruct (N.eqb c QUOTE); [intros [= _ ->]; lia|].
  destruct (N.eqb c BACKSLASH).
  - destruct s as [|e s]; [discriminate|].
    destruct (N.eqb e (ch "u")).
    + destruct s as [|h1 [|h2 [|h3 [|h4 s]]]]; try discriminate.
      destruct (hex_value h1), (hex_value h2), (hex_value h3), (hex_value h4);
        try discriminate.
      intros H. apply IH in H; simpl in *; lia.
    + destruct (unescape e); [|discriminate].
      intros H. apply IH in H; simpl in *; lia.
  - destruct (N.ltb c 32); [discriminate|].
    intros H. apply IH in H; simpl in *; lia.
Qed.

Lemma parse_chars_length s acc str r :
  parse_chars s acc = Some (str, r) -> length r < length s.
Proof. apply (parse_chars_length_aux (length s)). lia. Qed.

Lemma take_digits_length s ds r :
  take_digits s = (ds, r) -> length ds + length r = length s.
Proof.
  revert ds r. induction s as [|c s IH]; simpl; intros ds r.
  - intros [= <- <-]. reflexivity.
  - destruct (is_digit c).
    + destruct (take_digits s) as [ds' r'] eqn:E. intros [= <- <-].
      simpl. rewrite (IH _ _ eq_refl). reflexivity.
    + intros [= <- <-]. reflexivity.
Qed.

Lemma parse_sign_length s neg r :
  parse_sign s = (neg, r) -> length r <= length s.
Proof.
  destruct s as [|c s]; simpl; [intros [= _ <-]; simpl; lia|].
  destruct (N.eqb c (ch "-")); intros [= _ <-]; simpl; lia.
Qed.

Lemma parse_fraction_length s ds r :
  parse_fraction s = Some (ds, r) -> length r <= length s.
Proof.
  destruct s as [|c s]; simpl; [intros [= _ <-]; simpl; lia|].
  destruct (N.eqb c (ch ".")); [|intros [= _ <-]; simpl; lia].
  destruct (take_digits s) as [[|d ds'] r'] eqn:E; [discriminate|].
  intros [= _ <-]. apply take_digits_length in E. simpl in *. lia.
Qed.

Lemma parse_exponent_length s e r :
  parse_exponent s = Some (e, r) -> length r <= length s.
Proof.
  destruct s as [|c s]; simpl; [intros [= _ <-]; simpl; lia|].
  destruct (N.eqb c (ch "e") || N.eqb c (ch "E"));
    [|intros [= _ <-]; simpl; lia].
  destruct s as [|d s'].
  - simpl. discriminate.
  - destruct (N.eqb d (ch "-")); [|destruct (N.eqb d (ch "+"))];
      (match goal with |- context [take_digits ?x] =>
         destruct (take_digits x) as [[|d0 ds'] r'] eqn:E end);
      try discriminate; intros [= _ <-];
      apply take_digits_length in E; simpl in *; lia.
Qed.

Lemma parse_number_length s v r :
  parse_number s = Some (v, r) -> length r < length s.
Proof.
  unfold parse_number.
  destruct (parse_sign s) as [neg s1] eqn:E1.
  destruct (take_digits s1) as [[|d ds] s2] eqn:E2; [discriminate|].
  apply parse_sign_length in E1. apply take_digits_length in E2.
  destruct (leading_zero (d :: ds)); [discriminate|].
  destruct (parse_fraction s2) as [[frac s3]|] eqn:E3; [|discriminate].
  destruct (parse_exponent s3) as [[e s4]|] eqn:E4; [|discriminate].
  intros [= _ <-].
  apply parse_fraction_length in E3. apply parse_exponent_length in E4.
  simpl in *. lia.
Qed.

Lemma strip_prefix_length p : forall s r,
  strip_prefix p s = Some r -> length r <= length s.
Proof.
  induction p as [|a p IH]; intros [|b s] r; simpl; try discriminate.
  - intros [= <-]. simpl. lia.
  - intros [= <-]. simpl. lia.
  - destruct (N.eqb a b); [|discriminate]. intros H%IH. lia.
Qed.

Lemma parse_elements_length value fuel :
  consumes value -> forall s acc v r,
  parse_elements value fuel s acc = Done v r -> length r < length s.
Proof.
  intros Hv. induction fuel as [|fuel IH]; intros s acc v r; simpl;
    [discriminate|].
  destruct (value s) as [v1 r1| |] eqn:E1; try discriminate.
  apply Hv in E1.
  destruct (skip_ws r1) as [|c r2] eqn:E2; [discriminate|].
  apply skip_ws_cons in E2.
  destruct (N.eqb c (ch ",")); [intros H%IH; lia|].
  destruct (N.eqb c (ch "]")); [|discriminate].
  intros [= _ <-]. lia.
Qed.

Lemma parse_members_length value fuel :
  consumes value -> forall s acc v r,
  parse_members value fuel s acc = Done v r -> length r < length s.
Proof.
  intros Hv. induction fuel as [|fuel IH]; intros s acc v r; simpl;
    [discriminate|].
  destruct (skip_ws s) as [|c r0] eqn:E0; [discriminate|].
  apply skip_ws_cons in E0.
  destruct (N.eqb c QUOTE); [|discriminate].
  destruct (parse_chars r0 []) as [[key r1]|] eqn:E1; [|discriminate].
  apply parse_chars_length in E1.
  destruct (skip_ws r1) as [|c1 r2] eqn:E2; [discriminate|].
  apply skip_ws_cons in E2.
  destruct (N.eqb c1 (ch ":")); [|discriminate].
  destruct (value r2) as [v3 r3| |] eqn:E3; try discriminate.
  apply Hv in E3.
  destruct (skip_ws r3) as [|c3 r4] eqn:E4; [discriminate|].
  apply skip_ws_cons in E4.
  destruct (N.eqb c3 (ch ",")); [intros H%IH; lia|].
  destruct (N.eqb c3 (ch "}")); [|discriminate].
  intros [= _ <-]. lia.
Qed.

Lemma of_option_length {A} (o : option (A * jsstring)) n a r :
  (forall a r, o = Some (a, r) -> length r < n) ->
  of_option o = Done a r -> length r < n.
Proof.
  destruct o as [[a' r']|]; simpl; [|discriminate].
  intros H [= <- <-]. eauto.
Qed.

Lemma parse_value_length fuel : consumes (parse_value fuel).
Proof.
  induction fuel as [|fuel IH]; intros s v r; cbn [parse_value];
    [discriminate|].
  destruct (skip_ws s) as [|c r0] eqn:E0; [discriminate|].
  apply skip_ws_cons in E0.
  assert (forall p w (x : JSValue),
            of_option (pair x <$> strip_prefix p r0) = Done v w ->
            length w < length s) as Hlit.
  { intros p w x.
    destruct (strip_prefix p r0) as [r1|] eqn:E1; simpl; [|discriminate].
    intros [= _ <-]. apply strip_prefix_length in E1. lia. }
  destruct (N.eqb c (ch "n")); [apply Hlit|].
  destruct (N.eqb c (ch "t")); [apply Hlit|].
  destruct (N.eqb c (ch "f")); [apply Hlit|].
  destruct (N.eqb c QUOTE).
  { destruct (parse_chars r0 []) as [[str r1]|] eqn:E1; simpl; [|discriminate].
    intros [= _ <-]. apply parse_chars_length in E1. lia. }
  destruct (N.eqb c (ch "[")).
  { destruct (skip_ws r0) as [|c' r'] eqn:E1; [discriminate|].
    apply skip_ws_cons in E1.
    destruct (N.eqb c' (ch "]")); [intros [= _ <-]; lia|].
    intros H%parse_elements_length; [lia|exact IH]. }
  destruct (N.eqb c (ch "{")).
  { destruct (skip_ws r0) as [|c' r'] eqn:E1; [discriminate|].
    apply skip_ws_cons in E1.
    destruct (N.eqb c' (ch "}")); [intros [= _ <-]; lia|].
    intros H%parse_members_length; [lia|exact IH]. }
  destruct (parse_number (c :: r0)) as [[x r1]|] eqn:E1; simpl; [|discriminate].
  intros [= _ <-]. apply parse_number_length in E1. simpl in *.
  pose proof (skip_ws_length s). lia.
Qed.

Lemma parse_elements_fuel value fuel :
  consumes value -> forall s acc,
  (forall s', length s' <= length s -> value s' <> OutOfFuel) ->
  length s < fuel -> parse_elements value fuel s acc <> OutOfFuel.
Proof.
  intros Hv. induction fuel as [|fuel IH]; intros s acc Hs Hf; [lia|]. simpl.
  destruct (value s) as [v1 r1| |] eqn:E1; try discriminate.
  2: { exfalso. eapply Hs; [|exact E1]. lia. }
  apply Hv in E1.
  destruct (skip_ws r1) as [|c r2] eqn:E2; [discriminate|].
  apply skip_ws_cons in E2.
  destruct (N.eqb c (ch ",")).
  - apply IH; [|lia]. intros s' Hs'. apply Hs. lia.
  - destruct (N.eqb c (ch "]")); discriminate.
Qed.

Lemma parse_members_fuel value fuel :
  consumes value -> forall s acc,
  (forall s', length s' <= length s -> value s' <> OutOfFuel) ->
  length s < fuel -> parse_members value fuel s acc <> OutOfFuel.
Proof.
  intros Hv. induction fuel as [|fuel IH]; intros s acc Hs Hf; [lia|]. simpl.
  destruct (skip_ws s) as [|c r0] eqn:E0; [discriminate|].
  apply skip_ws_cons in E0.
  destruct (N.eqb c QUOTE); [|discriminate].
  destruct (parse_chars r0 []) as [[key r1]|] eqn:E1; [|discriminate].
  apply parse_chars_length in E1.
  destruct (skip_ws r1) as [|c1 r2] eqn:E2; [discriminate|].
  apply skip_ws_cons in E2.
  destruct (N.eqb c1 (ch ":")); [|discriminate].
  destruct (value r2) as [v3 r3| |] eqn:E3; try discriminate.
  2: { exfalso. eapply Hs; [|exact E3]. lia. }
  apply Hv in E3.
  destruct (skip_ws r3) as [|c3 r4] eqn:E4; [discriminate|].
  apply skip_ws_cons in E4.
  destruct (N.eqb c3 (ch ",")).
  - apply IH; [|lia]. intros s' Hs'. apply Hs. lia.
  - destruct (N.eqb c3 (ch "}")); discriminate.
Qed.

Lemma of_option_fuel {A} (o : option (A * jsstring)) : of_option o <> OutOfFuel.
Proof. destruct o as [[a r]|]; discriminate. Qed.

Lemma parse_value_fuel fuel : forall s,
  length s < fuel -> parse_value fuel s <> OutOfFuel.
Proof.
  induction fuel as [|fuel IH]; intros s Hf; [lia|]. cbn [parse_value].
  destruct (skip_ws s) as [|c r0] eqn:E0; [discriminate|].
  apply skip_ws_cons in E0.
  destruct (N.eqb c (ch "n")); [apply of_option_fuel|].
  destruct (N.eqb c (ch "t")); [apply of_option_fuel|].
  destruct (N.eqb c (ch "f")); [apply of_option_fuel|].
  destruct (N.eqb c QUOTE); [apply of_option_fuel|].
  destruct (N.eqb c (ch "[")).
  { destruct (skip_ws r0) as [|c' r'] eqn:E1; [discriminate|].
    destruct (N.eqb c' (ch "]")); [discriminate|].
    apply parse_elements_fuel; [apply parse_value_length| |lia].
    intros s' Hs'. apply IH. lia. }
  destruct (N.eqb c (ch "{")).
  { destruct (skip_ws r0) as [|c' r'] eqn:E1; [discriminate|].
    destruct (N.eqb c' (ch "}")); [discriminate|].
    apply parse_members_fuel; [apply parse_value_length| |lia].
    intros s' Hs'. apply IH. lia. }
  apply of_option_fuel.
Qed.

(** The fuel [JSON_parse] gives is enough for every text: when it throws,
    the text is not JSON. *)
Lemma JSON_parse_fuel text :
  parse_value (S (length text)) text <> OutOfFuel.
Proof. apply parse_value_fuel. lia. Qed.

(** ** The listing, line by line *)

Lemma parse_listing_lines psOut :
  exists lines,
    psOut = join [LF] lines /\ Forall (fun l => LF ∉ l) lines /\
    parse_listing psOut = List.map parse_line (List.filter has_visible lines).
Proof.
  exists (split LF psOut).
  destruct (join_split LF psOut) as [Hj Hf].
  split; [symmetry; exact Hj|]. split; [exact Hf|].
  unfold parse_listing. f_equal.
  apply List.filter_ext. intros l. apply trim_keeps_visible.
Qed.

Lemma parse_line_fields line :
  line_fields line (name (parse_line line))
    (from_option JStr JUndefined (status (parse_line line))).
Proof.
  unfold parse_line.
  destruct (join_split COMMA line) as [Hj Hf].
  destruct (split COMMA line) as [|n [|s [|t rest]]] eqn:E.
  - exfalso. eapply split_not_nil; eauto.
  - simpl in *. subst n. apply Forall_cons in Hf as [Hn _].
    constructor. exact Hn.
  - apply Forall_cons in Hf as [Hn Hf]. apply Forall_cons in Hf as [Hs _].
    simpl in *. rewrite <- Hj. constructor; assumption.
  - apply Forall_cons in Hf as [Hn Hf]. apply Forall_cons in Hf as [Hs _].
    rewrite <- Hj.
    change (join [COMMA] (n :: s :: t :: rest))
      with (n ++ COMMA :: s ++ COMMA :: join [COMMA] (t :: rest)).
    simpl. constructor; assumption.
Qed.

(** ** [execCommand] and the promises it hands out *)

Lemma emit_nil st : emit [] st = st.
Proof. destruct st. unfold emit. simpl. rewrite app_nil_r. reflexivity. Qed.

Lemma execCommand_prints w argv st out :
  stdout_of (subprocess w (launched st) argv) = Some out ->
  exists p,
    execCommand w argv None st
    = (p, {| launched := S (launched st);
             trace := trace st ++ [EvSubprocess argv] |})
    /\ settled p = Resolved out /\ on_settle p = [].
Proof.
  unfold execCommand.
  destruct (subprocess w (launched st) argv) as [| | |[] o e x];
    simpl; try discriminate.
  intros [= ->]. eexists. split; [reflexivity|]. split; reflexivity.
Qed.

Lemma call_execCommand_prints w argv st out :
  stdout_of (subprocess w (launched st) argv) = Some out ->
  call (execCommand w argv None) st
  = (Resolved out, {| launched := S (launched st);
                      trace := trace st ++ [EvSubprocess argv] |}).
Proof.
  intros H. destruct (execCommand_prints w argv st out H) as (p & E & Hs & Ho).
  unfold call. rewrite E. unfold await. rewrite Hs, Ho, emit_nil. reflexivity.
Qed.

Lemma launch_each_prints w : forall images outs st,
  length outs = length images ->
  (forall i image, images !! i = Some image ->
     exists out, outs !! i = Some out /\
       stdout_of (subprocess w (launched st + i) (inspect (name image)))
       = Some out) ->
  exists promises,
    launch_each (fun image => execCommand w (inspect (name image)) None)
      images st
    = (promises,
       {| launched := launched st + length images;
          trace := trace st
                   ++ List.map
                        (fun image => EvSubprocess (inspect (name image)))
                        images |})
    /\ Forall2 quietly_resolved promises outs.
Proof.
  induction images as [|image images IH]; intros outs st Hlen Hall.
  - destruct outs; [|discriminate]. exists []. simpl.
    rewrite Nat.add_0_r, app_nil_r. destruct st.
    split; [reflexivity|constructor].
  - destruct outs as [|out outs]; [discriminate|]. injection Hlen as Hlen.
    destruct (Hall 0 image eq_refl) as (out' & [= <-] & H0).
    rewrite Nat.add_0_r in H0.
    destruct (execCommand_prints w _ st out H0) as (p & E & Hp).
    set (st1 := {| launched := S (launched st);
                   trace := trace st
                            ++ [EvSubprocess (inspect (name image))] |})
      in *.
    destruct (IH outs st1 Hlen) as (ps & Eps & Hps).
    { intros i im Hi. destruct (Hall (S i) im Hi) as (o & Ho & Hs).
      exists o. split; [exact Ho|]. simpl.
      replace (S (launched st + i)) with (launched st + S i) by lia. exact Hs. }
    exists (p :: ps). simpl. rewrite E, Eps. split.
    + f_equal. simpl. f_equal; [lia|]. rewrite <- app_assoc. reflexivity.
    + constructor; assumption.
Qed.

Lemma insert_by_rank_Forall (P : Promise -> Prop) p l :
  P p -> Forall P l -> Forall P (insert_by_rank p l).
Proof.
  intros Hp. induction 1 as [|q r Hq Hr IH]; simpl.
  - repeat constructor. exact Hp.
  - destruct (rank p <=? rank q); repeat constructor; assumption.
Qed.

Lemma completion_order_Forall (P : Promise -> Prop) ps :
  Forall P ps -> Forall P (completion_order ps).
Proof.
  unfold completion_order. induction 1 as [|p r Hp Hr IH]; simpl.
  - constructor.
  - destruct (negb (is_pending p)); simpl; [|exact IH].
    apply insert_by_rank_Forall; assumption.
Qed.

Lemma quiet_promises l :
  Forall (fun p => exists out, quietly_resolved p out) l ->
  first_rejection l = None /\ concat (List.map on_settle l) = [].
Proof.
  induction 1 as [|p r (out & Hs & Ho) _ [IH1 IH2]]; simpl; [tauto|].
  rewrite Hs, Ho, IH1, IH2. tauto.
Qed.

(** When every promise is fulfilled, [Promise.all] gives the values in the
    order of the array, whatever the order in which they arrived. *)
Lemma await_all_resolved ps outs st :
  Forall2 quietly_resolved ps outs ->
  await_all ps st = (Resolved outs, st).
Proof.
  intros H. unfold await_all.
  assert (E3 : all_resolved ps = Some outs).
  { induction H as [|p out ps outs [Hs _] _ IH]; simpl; [reflexivity|].
    rewrite Hs, IH. reflexivity. }
  destruct (quiet_promises (completion_order ps)) as [E1 E2].
  { apply completion_order_Forall. clear E3.
    induction H; constructor; eauto. }
  rewrite E1, E2, E3, emit_nil. reflexivity.
Qed.

(** ** [getContainers] when every subprocess prints something *)

Lemma getContainers_printed w psOut outs :
  stdout_of (subprocess w 0 list_all) = Some psOut ->
  inspect_outputs w (parse_listing psOut) = List.map Some outs ->
  getContainers w init
  = lift (build_records (parse_listing psOut) 0 outs)
      {| launched := S (length (parse_listing psOut));
         trace := EvSubprocess list_all
                  :: List.map (fun image => EvSubprocess (inspect (name image)))
                       (parse_listing psOut) |}.
Proof.
  intros Hps Houts. unfold getContainers, mbind, Async_bind.
  rewrite (call_execCommand_prints w list_all init psOut Hps). simpl.
  set (images := parse_listing psOut) in *.
  set (st1 := {| launched := 1; trace := [EvSubprocess list_all] |}).
  assert (Hlen : length outs = length images).
  { apply (f_equal length) in Houts.
    unfold inspect_outputs in Houts.
    rewrite length_imap, length_map in Houts. congruence. }
  assert (Hall : forall i image, images !! i = Some image ->
            exists out, outs !! i = Some out /\
              stdout_of (subprocess w (launched st1 + i) (inspect (name image)))
              = Some out).
  { intros i image Hi.
    apply (f_equal (fun l => l !! i)) in Houts.
    unfold inspect_outputs in Houts.
    rewrite list_lookup_imap, Hi, list_lookup_fmap in Houts. simpl in Houts.
    destruct (outs !! i) as [out|]; [|discriminate]. simpl in Houts.
    exists out. split; [reflexivity|]. simpl. congruence. }
  destruct (launch_each_prints w images outs st1 Hlen Hall) as (ps & E & Hq).
  rewrite E. rewrite (await_all_resolved ps outs _ Hq).
  destruct (build_records images 0 outs); reflexivity.
Qed.

(** ** [JSON.parse] never gives [undefined] *)

Lemma parse_elements_defined value fuel : forall s acc v r,
  parse_elements value fuel s acc = Done v r -> v <> JUndefined.
Proof.
  induction fuel as [|fuel IH]; intros s acc v r; simpl; [discriminate|].
  destruct (value s) as [v1 r1| |]; try discriminate.
  destruct (skip_ws r1) as [|c r2]; [discriminate|].
  destruct (N.eqb c (ch ",")); [apply IH|].
  destruct (N.eqb c (ch "]")); [|discriminate].
  intros [= <- _]. discriminate.
Qed.

Lemma parse_members_defined value fuel : forall s acc v r,
  parse_members value fuel s acc = Done v r -> v <> JUndefined.
Proof.
  induction fuel as [|fuel IH]; intros s acc v r; simpl; [discriminate|].
  destruct (skip_ws s) as [|c r0]; [discriminate|].
  destruct (N.eqb c QUOTE); [|discriminate].
  destruct (parse_chars r0 []) as [[key r1]|]; [|discriminate].
  destruct (skip_ws r1) as [|c1 r2]; [discriminate|].
  destruct (N.eqb c1 (ch ":")); [|discriminate].
  destruct (value r2) as [v3 r3| |]; try discriminate.
  destruct (skip_ws r3) as [|c3 r4]; [discriminate|].
  destruct (N.eqb c3 (ch ",")); [apply IH|].
  destruct (N.eqb c3 (ch "}")); [|discriminate].
  intros [= <- _]. discriminate.
Qed.

Lemma parse_number_defined s v r :
  parse_number s = Some (v, r) -> v <> JUndefined.
Proof.
  unfold parse_number.
  destruct (parse_sign s) as [neg s1].
  destruct (take_digits s1) as [[|d ds] s2]; [discriminate|].
  destruct (leading_zero (d :: ds)); [discriminate|].
  destruct (parse_fraction s2) as [[frac s3]|]; [|discriminate].
  destruct (parse_exponent s3) as [[e s4]|]; [|discriminate].
  intros [= <- _]. discriminate.
Qed.

Lemma parse_value_defined fuel s v r :
  parse_value fuel s = Done v r -> v <> JUndefined.
Proof.
  destruct fuel as [|fuel]; cbn [parse_value]; [discriminate|].
  destruct (skip_ws s) as [|c r0]; [discriminate|].
  assert (forall p (x : JSValue), x <> JUndefined ->
            of_option (pair x <$> strip_prefix p r0) = Done v r ->
            v <> JUndefined) as Hlit.
  { intros p x Hx. destruct (strip_prefix p r0); simpl; [|discriminate].
    intros [= <- _]. exact Hx. }
  destruct (N.eqb c (ch "n")); [apply Hlit; discriminate|].
  destruct (N.eqb c (ch "t")); [apply Hlit; discriminate|].
  destruct (N.eqb c (ch "f")); [apply Hlit; discriminate|].
  destruct (N.eqb c QUOTE).
  { destruct (parse_chars r0 []) as [[str r1]|]; simpl; [|discriminate].
    intros [= <- _]. discriminate. }
  destruct (N.eqb c (ch "[")).
  { destruct (skip_ws r0) as [|c' r']; [discriminate|].
    destruct (N.eqb c' (ch "]")); [intros [= <- _]; discriminate|].
    apply parse_elements_defined. }
  destruct (N.eqb c (ch "{")).
  { destruct (skip_ws r0) as [|c' r']; [discriminate|].
    destruct (N.eqb c' (ch "}")); [intros [= <- _]; discriminate|].
    apply parse_members_defined. }
  destruct (parse_number (c :: r0)) as [[x r1]|] eqn:E; simpl; [|discriminate].
  intros [= <- _]. eapply parse_number_defined; eauto.
Qed.

Lemma JSON_parse_defined text v :
  JSON_parse text = Normal v -> v <> JUndefined.
Proof.
  unfold JSON_parse.
  destruct (parse_value (S (length text)) text) as [x r| |] eqn:E;
    try discriminate.
  destruct (skip_ws r); [|discriminate].
  intros [= <-]. eapply parse_value_defined; eauto.
Qed.

(** ** The record of one container *)

Lemma get_property v key :
  v <> JNull -> v <> JUndefined -> get v key = Normal (property v key).
Proof. destruct v; intros H1 H2; try reflexivity; congruence. Qed.

Lemma container_record_eq v image :
  v <> JNull -> v <> JUndefined ->
  container_record v image
  = Normal (spread
              (spread ∅
                 (if ToBoolean (property v (COMPOSE_PREFIX ++ js ".project"))
                  then {[ js "compose" := compose_of v ]} else ∅))
              (from_option image_object ∅ image)).
Proof.
  intros H1 H2. unfold container_record.
  rewrite !(get_property v _ H1 H2). unfold mbind, mret; simpl.
  destruct (ToBoolean _); reflexivity.
Qed.

(** The record is the line of the listing, with one more key when the
    project label is set. *)
Lemma record_without_compose image :
  spread (spread ∅ ∅) (image_object image)
  = {[ js "name" := JStr (name image);
       js "status" := from_option JStr JUndefined (status image) ]}.
Proof.
  unfold spread. rewrite !(right_id_L ∅ (∪)). reflexivity.
Qed.

Lemma record_with_compose (c : JSValue) image :
  spread (spread ∅ {[ js "compose" := c ]}) (image_object image)
  = {[ js "name" := JStr (name image);
       js "status" := from_option JStr JUndefined (status image);
       js "compose" := c ]}.
Proof.
  unfold spread, image_object. rewrite (right_id_L ∅ (∪)).
  generalize (JStr (name image)) (from_option JStr JUndefined (status image)).
  intros x y. vm_compute. reflexivity.
Qed.

Lemma container_record_of v image :
  v <> JNull -> v <> JUndefined ->
  container_record v (Some image) = Normal (record_of v image).
Proof.
  intros H1 H2. rewrite (container_record_eq v _ H1 H2). unfold record_of.
  simpl from_option.
  destruct (ToBoolean _);
    [rewrite record_with_compose|rewrite record_without_compose]; reflexivity.
Qed.

Lemma build_records_usable images : forall outs i,
  Forall usable_labels outs ->
  exists records,
    build_records images i outs = Normal records /\
    length records = length outs /\
    forall j image out,
      images !! (i + j) = Some image -> outs !! j = Some out ->
      exists v, JSON_parse out = Normal v /\ v <> JNull /\
                records !! j = Some (record_of v image).
Proof.
  induction outs as [|out outs IH]; intros i H.
  - exists []. simpl. repeat split. intros j image out _ Hj. discriminate Hj.
  - apply Forall_cons in H as [(v & Hv & Hn) H].
    destruct (IH (S i) H) as (records & E & Hlen & Hrec).
    pose proof (JSON_parse_defined _ _ Hv) as Hd.
    destruct (images !! i) as [image|] eqn:Ei.
    + exists (record_of v image :: records). simpl.
      rewrite Hv. unfold mbind at 1; simpl. rewrite Ei.
      rewrite (container_record_of v image Hn Hd).
      unfold mbind at 1; simpl. rewrite E. unfold mbind, mret; simpl.
      split; [reflexivity|]. split; [congruence|].
      intros [|j] im o Him Ho; simpl in *.
      * rewrite Nat.add_0_r in Him. injection Ho as <-.
        exists v. split; [exact Hv|]. split; [exact Hn|]. congruence.
      * apply (Hrec j im o); [|exact Ho].
        replace (i + S j) with (S (i + j)) in Him by lia. exact Him.
    + eexists (_ :: records). simpl.
      rewrite Hv. unfold mbind at 1; simpl. rewrite Ei.
      rewrite (container_record_eq v None Hn Hd).
      unfold mbind at 1; simpl. rewrite E. unfold mbind, mret; simpl.
      split; [reflexivity|]. split; [congruence|].
      intros [|j] im o Him Ho; simpl in *.
      * rewrite Nat.add_0_r in Him. congruence.
      * apply (Hrec j im o); [|exact Ho].
        replace (i + S j) with (S (i + j)) in Him by lia. exact Him.
Qed.

(** The listing succeeds when every subprocess prints and every inspect
    output is usable, and the records do not depend on the order in which
    the inspect calls finish. *)
Lemma getContainers_usable w psOut outs :
  stdout_of (subprocess w 0 list_all) = Some psOut ->
  inspect_outputs w (parse_listing psOut) = List.map Some outs ->
  Forall usable_labels outs ->
  exists records,
    length records = length (parse_listing psOut) /\
    (forall j image out,
       parse_listing psOut !! j = Some image -> outs !! j = Some out ->
       exists v, JSON_parse out = Normal v /\ v <> JNull /\
                 records !! j = Some (record_of v image)) /\
    forall times,
      getContainers (reschedule times w) init
      = (Resolved records,
         {| launched := S (length (parse_listing psOut));
            trace := EvSubprocess list_all
                     :: List.map
                          (fun image => EvSubprocess (inspect (name image)))
                          (parse_listing psOut) |}).
Proof.
  intros Hps Houts Hus.
  destruct (build_records_usable (parse_listing psOut) outs 0 Hus)
    as (records & E & Hlen & Hrec).
  exists records. split.
  { rewrite Hlen. apply (f_equal length) in Houts.
    unfold inspect_outputs in Houts.
    rewrite length_imap, length_map in Houts. congruence. }
  split; [exact Hrec|].
  intros times.
  rewrite (getContainers_printed (reschedule times w) psOut outs Hps Houts).
  rewrite E. reflexivity.
Qed.

Lemma record_of_name v image :
  record_of v image !! js "name" = Some (JStr (name image)).
Proof.
  unfold record_of. generalize (JStr (name image)) (compose_of v)
    (from_option JStr JUndefined (status image)). intros x y z.
  destruct (ToBoolean _); vm_compute; reflexivity.
Qed.

Lemma record_of_status v image :
  record_of v image !! js "status"
  = Some (from_option JStr JUndefined (status image)).
Proof.
  unfold record_of. generalize (JStr (name image)) (compose_of v)
    (from_option JStr JUndefined (status image)). intros x y z.
  destruct (ToBoolean _); vm_compute; reflexivity.
Qed.

Lemma record_of_compose v image :
  record_of v image !! js "compose"
  = if ToBoolean (property v (COMPOSE_PREFIX ++ js ".project"))
    then Some (compose_of v) else None.
Proof.
  unfold record_of. generalize (JStr (name image)) (compose_of v)
    (from_option JStr JUndefined (status image)). intros x y z.
  destruct (ToBoolean _); vm_compute; reflexivity.
Qed.

Lemma record_of_keys v image :
  record_of v image !! js "compose" = None ->
  dom (record_of v image) = {[ js "name"; js "status" ]}.
Proof.
  rewrite record_of_compose. unfold record_of.
  destruct (ToBoolean _); [discriminate|]. intros _.
  rewrite dom_insert_L, dom_singleton_L. reflexivity.
Qed.

Lemma reschedule_same w : reschedule (settles_at w) w = w.
Proof. destruct w. reflexivity. Qed.

Lemma imap_outputs (f : nat -> Image -> option jsstring) : forall images,
  (forall i image, exists out, f i image = Some out /\ usable_labels out) ->
  exists outs,
    imap f images = List.map Some outs /\ Forall usable_labels outs.
Proof.
  intros images. revert f.
  induction images as [|image images IH]; intros f Hf.
  - exists []. split; [reflexivity|constructor].
  - destruct (Hf 0 image) as (out & E & Hu).
    destruct (IH (f ∘ S)) as (outs & Eo & Ho).
    { intros i im. apply (Hf (S i) im). }
    exists (out :: outs). simpl. rewrite E, Eo.
    split; [reflexivity|constructor; assumption].
Qed.

(** On a host where every subprocess after the listing prints usable
    labels, the listing gives one record per line it kept, and the record
    of index [i] is made of the line of index [i] and of what the inspect
    call of index [i] printed. *)
Lemma getContainers_inspected w psOut :
  stdout_of (subprocess w 0 list_all) = Some psOut ->
  (forall n argv, 0 < n ->
     exists out, stdout_of (subprocess w n argv) = Some out /\
                 usable_labels out) ->
  exists records,
    length records = length (parse_listing psOut) /\
    (forall i image, parse_listing psOut !! i = Some image ->
       exists out v,
         stdout_of (subprocess w (S i) (inspect (name image))) = Some out /\
         JSON_parse out = Normal v /\ v <> JNull /\
         records !! i = Some (record_of v image)) /\
    forall times, exists st,
      getContainers (reschedule times w) init = (Resolved records, st).
Proof.
  intros Hps Hall.
  destruct (imap_outputs
              (fun i image =>
                 stdout_of (subprocess w (S i) (inspect (name image))))
              (parse_listing psOut)) as (outs & Eo & Hu).
  { intros i image. apply Hall. lia. }
  destruct (getContainers_usable w psOut outs Hps Eo Hu)
    as (records & Hlen & Hrec & Hrun).
  exists records. split; [exact Hlen|]. split.
  - intros i image Hi.
    pose proof (f_equal (fun l => l !! i) Eo) as Ei. simpl in Ei.
    rewrite list_lookup_imap, Hi, list_lookup_fmap in Ei. simpl in Ei.
    destruct (outs !! i) as [out|] eqn:Eout; [|discriminate].
    destruct (Hrec i image out Hi Eout) as (v & Hv & Hn & Hr).
    exists out, v. repeat split; try assumption. simpl in Ei. congruence.
  - intros times. eexists. apply Hrun.
Qed.

(** ** The listing *)

(** C6. When the running-only listing [docker ps --format
    {{.Names}},{{.Status}}] prints [psOut], [getContainerCount] returns the
    number of lines of [psOut] that have a character which is not white
    space, so 0 when [psOut] is empty; that listing is the only subprocess
    it launches (no inspect call), and its arguments are those of the
    listing of [getContainers] without [-a]. *)
Theorem getContainerCount_counts_lines (w : World) (psOut : jsstring) :
  stdout_of
    (subprocess w 0
       [js "docker"; js "ps"; js "--format"; js "{{.Names}},{{.Status}}"])
  = Some psOut ->
  exists lines,
    psOut = join [LF] lines /\ Forall (fun l => LF ∉ l) lines /\
    getContainerCount w init
    = (Resolved (length (List.filter has_visible lines)),
       {| launched := 1;
          trace := [EvSubprocess [js "docker"; js "ps"; js "--format";
                                  js "{{.Names}},{{.Status}}"]] |}) /\
    (psOut = [] -> List.filter has_visible lines = []) /\
    List.filter (fun a => negb (bool_decide (a = js "-a"))) list_all
    = [js "docker"; js "ps"; js "--format"; js "{{.Names}},{{.Status}}"].
Proof.
  intros H.
  destruct (parse_listing_lines psOut) as (lines & Hj & Hf & Hp).
  exists lines. split; [exact Hj|]. split; [exact Hf|]. split; [|split].
  - unfold getContainerCount, mbind, Async_bind.
    rewrite (call_execCommand_prints w list_running init psOut H).
    rewrite Hp, length_map. reflexivity.
  - intros ->. destruct lines as [|l [|l' ls]]; simpl in *.
    + reflexivity.
    + subst l. reflexivity.
    + destruct l; discriminate Hj.
  - vm_compute. reflexivity.
Qed.

Lemma getContainerCount_counts_lines_witness :
  stdout_of
    (subprocess
       (docker_host (js "web,Up 2 hours" ++ [LF] ++ js "db,Exited (0)" ++ [LF])
          (fun _ => js "{}"))
       0 [js "docker"; js "ps"; js "--format"; js "{{.Names}},{{.Status}}"])
  = Some (js "web,Up 2 hours" ++ [LF] ++ js "db,Exited (0)" ++ [LF]) /\
  exists lines,
    js "web,Up 2 hours" ++ [LF] ++ js "db,Exited (0)" ++ [LF]
    = join [LF] lines /\
    fst (getContainerCount
           (docker_host
              (js "web,Up 2 hours" ++ [LF] ++ js "db,Exited (0)" ++ [LF])
              (fun _ => js "{}")) init)
    = Resolved (length (List.filter has_visible lines)).
Proof.
  split; [reflexivity|].
  destruct (getContainerCount_counts_lines
              (docker_host
                 (js "web,Up 2 hours" ++ [LF] ++ js "db,Exited (0)" ++ [LF])
                 (fun _ => js "{}"))
              (js "web,Up 2 hours" ++ [LF] ++ js "db,Exited (0)" ++ [LF])
              eq_refl) as (lines & Hj & _ & E & _).
  exists lines. split; [exact Hj|]. rewrite E. reflexivity.
Defined.

(** C4, as amended. When the listing [docker ps -a] prints [psOut] and every
    inspect call prints JSON other than [null], [getContainers] gives exactly
    one record per line of [psOut] that has a character which is not white
    space, in the order of the lines. The [name] of a record is the text of
    its line before the first comma, and its [status] the text between the
    first comma and the second one or the end of the line: on a line with
    one comma, the text before and after the comma; with no comma the status
    is [undefined]. The record of index [i] takes its [compose] field from
    what the inspect call of index [i], made for that record's name,
    printed, at whatever times the inspect calls finish. *)
Theorem getContainers_records (w : World) (psOut : jsstring) :
  stdout_of (subprocess w 0 list_all) = Some psOut ->
  (forall n argv, 0 < n ->
     exists out, stdout_of (subprocess w n argv) = Some out /\
                 usable_labels out) ->
  exists lines records,
    psOut = join [LF] lines /\ Forall (fun l => LF ∉ l) lines /\
    Forall2
      (fun line record =>
         exists n s,
           line_fields line n s /\
           record !! js "name" = Some (JStr n) /\
           record !! js "status" = Some s)
      (List.filter has_visible lines) records /\
    (forall i record, records !! i = Some record ->
       exists n out v,
         record !! js "name" = Some (JStr n) /\
         stdout_of (subprocess w (S i) (inspect n)) = Some out /\
         JSON_parse out = Normal v /\
         record !! js "compose"
         = if ToBoolean (property v (COMPOSE_PREFIX ++ js ".project"))
           then Some (compose_of v) else None) /\
    forall times, exists st,
      getContainers (reschedule times w) init = (Resolved records, st).
Proof.
  intros Hps Hall.
  destruct (parse_listing_lines psOut) as (lines & Hj & Hf & Hp).
  destruct (getContainers_inspected w psOut Hps Hall)
    as (records & Hlen & Hrec & Hrun).
  exists lines, records.
  split; [exact Hj|]. split; [exact Hf|]. split; [|split; [|exact Hrun]].
  - apply Forall2_same_length_lookup_2.
    + rewrite Hlen, Hp, length_map. reflexivity.
    + intros i line record Hline Hrecord.
      assert (Hi : parse_listing psOut !! i = Some (parse_line line)).
      { rewrite Hp, list_lookup_fmap, Hline. reflexivity. }
      destruct (Hrec i _ Hi) as (out & v & _ & _ & _ & Hr).
      rewrite Hr in Hrecord. injection Hrecord as <-.
      exists (name (parse_line line)),
        (from_option JStr JUndefined (status (parse_line line))).
      split; [apply parse_line_fields|].
      split; [apply record_of_name|apply record_of_status].
  - intros i record Hrecord.
    destruct (lookup_lt_is_Some_2 (parse_listing psOut) i) as [image Hi].
    { rewrite <- Hlen. eapply lookup_lt_Some; eauto. }
    destruct (Hrec i image Hi) as (out & v & Hout & Hv & _ & Hr).
    rewrite Hr in Hrecord. injection Hrecord as <-.
    exists (name image), out, v.
    split; [apply record_of_name|]. split; [exact Hout|].
    split; [exact Hv|apply record_of_compose].
Qed.

Lemma getContainers_records_witness :
  stdout_of
    (subprocess
       (docker_host (js "web,Up 2 hours" ++ [LF] ++ js "db,Exited (0)" ++ [LF])
          (fun _ => js "{}")) 0 list_all)
  = Some (js "web,Up 2 hours" ++ [LF] ++ js "db,Exited (0)" ++ [LF]) /\
  exists lines records,
    js "web,Up 2 hours" ++ [LF] ++ js "db,Exited (0)" ++ [LF]
    = join [LF] lines /\
    Forall2
      (fun line record =>
         exists n s,
           line_fields line n s /\
           record !! js "name" = Some (JStr n) /\
           record !! js "status" = Some s)
      (List.filter has_visible lines) records /\
    forall times, exists st,
      getContainers
        (reschedule times
           (docker_host
              (js "web,Up 2 hours" ++ [LF] ++ js "db,Exited (0)" ++ [LF])
              (fun _ => js "{}"))) init
      = (Resolved records, st).
Proof.
  split; [reflexivity|].
  destruct (getContainers_records
              (docker_host
                 (js "web,Up 2 hours" ++ [LF] ++ js "db,Exited (0)" ++ [LF])
                 (fun _ => js "{}"))
              (js "web,Up 2 hours" ++ [LF] ++ js "db,Exited (0)" ++ [LF])
              eq_refl)
    as (lines & records & Hj & _ & H2 & _ & Hrun).
  - intros [|n] argv Hn; [lia|].
    exists (js "{}"). split; [reflexivity|].
    exists (JObj ∅). split; [vm_compute; reflexivity|discriminate].
  - exists lines, records. split; [exact Hj|]. split; [exact H2|exact Hrun].
Defined.

(** C4, as first stated, fails on a line with two commas: the status of the
    line [a,b,c] is [b], which is the text after no comma of the line. *)
Lemma getContainers_second_comma :
  exists record st,
    getContainers (docker_host (js "a,b,c" ++ [LF]) (fun _ => js "{}")) init
    = (Resolved [record], st) /\
    ~ exists n s,
        js "a,b,c" = n ++ COMMA :: s /\
        record !! js "name" = Some (JStr n) /\
        record !! js "status" = Some (JStr s).
Proof.
  eexists. eexists. split; [vm_compute; reflexivity|].
  intros (n & s & E & Hn & Hs).
  vm_compute in Hn. vm_compute in Hs.
  injection Hn as <-. injection Hs as <-.
  vm_compute in E. discriminate E.
Qed.

Lemma build_records_null images : forall outs i k out,
  outs !! k = Some out ->
  JSON_parse out = Normal JNull ->
  (forall j o, j < k -> outs !! j = Some o -> usable_labels o) ->
  build_records images i outs = Throw TypeError.
Proof.
  induction outs as [|o outs IH]; intros i k out Hk Hnull Hbefore.
  - discriminate Hk.
  - destruct k as [|k]; simpl in Hk.
    + injection Hk as ->. simpl. rewrite Hnull.
      unfold mbind at 1; simpl. reflexivity.
    + destruct (Hbefore 0 o ltac:(lia) eq_refl) as (v & Hv & Hn).
      pose proof (JSON_parse_defined _ _ Hv) as Hd.
      simpl. rewrite Hv. unfold mbind at 1; simpl.
      rewrite (container_record_eq v _ Hn Hd). unfold mbind at 1; simpl.
      rewrite (IH (S i) k out Hk Hnull); [reflexivity|].
      intros j o' Hj Ho'. apply (Hbefore (S j) o'); [lia|exact Ho'].
Qed.

(** C1. A container whose inspect output is the text [null] makes the
    listing fail. When the inspect outputs before it are usable, reading
    the project label of [null] throws a TypeError and [getContainers] is
    rejected with it: it yields no record, neither for that container nor
    for any other. *)
Theorem getContainers_null_labels (w : World) (psOut : jsstring)
    (outs : list jsstring) (k : nat) (out : jsstring) :
  stdout_of (subprocess w 0 list_all) = Some psOut ->
  inspect_outputs w (parse_listing psOut) = List.map Some outs ->
  outs !! k = Some out ->
  JSON_parse out = Normal JNull ->
  (forall j o, j < k -> outs !! j = Some o -> usable_labels o) ->
  fst (getContainers w init) = Rejected TypeError.
Proof.
  intros Hps Houts Hk Hnull Hbefore.
  rewrite (getContainers_printed w psOut outs Hps Houts).
  rewrite (build_records_null _ outs 0 k out Hk Hnull Hbefore). reflexivity.
Qed.

Lemma getContainers_null_labels_witness :
  JSON_parse (js "null" ++ [LF]) = Normal JNull /\
  fst (getContainers
         (docker_host (js "c,Up" ++ [LF]) (fun _ => js "null" ++ [LF])) init)
  = Rejected TypeError.
Proof.
  split; [vm_compute; reflexivity|].
  apply (getContainers_null_labels
           (docker_host (js "c,Up" ++ [LF]) (fun _ => js "null" ++ [LF]))
           (js "c,Up" ++ [LF]) [js "null" ++ [LF]] 0 (js "null" ++ [LF])).
  - reflexivity.
  - vm_compute. reflexivity.
  - reflexivity.
  - vm_compute. reflexivity.
  - intros j o Hj. lia.
Defined.

Lemma property_label_map labels key :
  property (label_map labels) key
  = from_option JStr JUndefined (labels !! key).
Proof.
  unfold property, label_map. rewrite lookup_fmap.
  destruct (labels !! key); reflexivity.
Qed.

Lemma truthy_label labels key :
  ToBoolean (property (label_map labels) key) = true
  <-> exists p, labels !! key = Some p /\ p <> [].
Proof.
  rewrite property_label_map.
  destruct (labels !! key) as [[|c p]|]; simpl; split.
  - discriminate.
  - intros (p & [= <-] & Hp). congruence.
  - intros _. eexists. split; [reflexivity|discriminate].
  - reflexivity.
  - discriminate.
  - intros (p & Hp & _). discriminate Hp.
Qed.

(** C5. When the listing prints and every inspect call prints JSON other
    than [null], the record of index [i] has a [compose] key if and only if
    the value that the output of the inspect call of index [i] gives the
    key [com.docker.compose.project] is truthy; for a label map (an object
    of strings, what [docker inspect] prints for labels) that is: if and
    only if the project label is a string that is not empty. A record
    without the key has the keys [name] and [status] and nothing else:
    [compose] is absent, not [null] and not an empty object. *)
Theorem compose_iff_project_label (w : World) (psOut : jsstring) :
  stdout_of (subprocess w 0 list_all) = Some psOut ->
  (forall n argv, 0 < n ->
     exists out, stdout_of (subprocess w n argv) = Some out /\
                 usable_labels out) ->
  exists records st,
    getContainers w init = (Resolved records, st) /\
    forall i record, records !! i = Some record ->
      exists n out v,
        record !! js "name" = Some (JStr n) /\
        stdout_of (subprocess w (S i) (inspect n)) = Some out /\
        JSON_parse out = Normal v /\
        (is_Some (record !! js "compose") <->
         ToBoolean (property v (COMPOSE_PREFIX ++ js ".project")) = true) /\
        (forall labels, v = label_map labels ->
           (is_Some (record !! js "compose") <->
            exists p, labels !! (COMPOSE_PREFIX ++ js ".project") = Some p /\
                      p <> [])) /\
        (record !! js "compose" = None ->
         dom record = {[ js "name"; js "status" ]}).
Proof.
  intros Hps Hall.
  destruct (getContainers_inspected w psOut Hps Hall)
    as (records & Hlen & Hrec & Hrun).
  destruct (Hrun (settles_at w)) as [st Hst]. rewrite reschedule_same in Hst.
  exists records, st. split; [exact Hst|].
  intros i record Hrecord.
  destruct (lookup_lt_is_Some_2 (parse_listing psOut) i) as [image Hi].
  { rewrite <- Hlen. eapply lookup_lt_Some; eauto. }
  destruct (Hrec i image Hi) as (out & v & Hout & Hv & _ & Hr).
  rewrite Hr in Hrecord. injection Hrecord as <-.
  exists (name image), out, v.
  split; [apply record_of_name|]. split; [exact Hout|]. split; [exact Hv|].
  assert (Hiff : is_Some (record_of v image !! js "compose")
                 <-> ToBoolean (property v (COMPOSE_PREFIX ++ js ".project"))
                     = true).
  { rewrite record_of_compose.
    destruct (ToBoolean _); split; try discriminate.
    - reflexivity.
    - intros _. eexists. reflexivity.
    - intros [x Hx]. discriminate Hx. }
  split; [exact Hiff|]. split.
  - intros labels ->. rewrite Hiff. apply truthy_label.
  - apply record_of_keys.
Qed.

Lemma compose_iff_project_label_witness :
  stdout_of
    (subprocess
       (docker_host (js "web,Up" ++ [LF] ++ js "db,Up" ++ [LF])
          (fun container =>
             if decide (container = js "web") then
               labels_text [(COMPOSE_PREFIX ++ js ".project", js "shop")]
             else js "{}"))
       0 list_all)
  = Some (js "web,Up" ++ [LF] ++ js "db,Up" ++ [LF]) /\
  exists records st,
    getContainers
      (docker_host (js "web,Up" ++ [LF] ++ js "db,Up" ++ [LF])
         (fun container =>
            if decide (container = js "web") then
              labels_text [(COMPOSE_PREFIX ++ js ".project", js "shop")]
            else js "{}")) init
    = (Resolved records, st) /\
    forall i record, records !! i = Some record ->
      exists n out v,
        record !! js "name" = Some (JStr n) /\
        JSON_parse out = Normal v /\
        (is_Some (record !! js "compose") <->
         ToBoolean (property v (COMPOSE_PREFIX ++ js ".project")) = true).
Proof.
  split; [reflexivity|].
  destruct (compose_iff_project_label
              (docker_host (js "web,Up" ++ [LF] ++ js "db,Up" ++ [LF])
                 (fun container =>
                    if decide (container = js "web") then
                      labels_text
                        [(COMPOSE_PREFIX ++ js ".project", js "shop")]
                    else js "{}"))
              (js "web,Up" ++ [LF] ++ js "db,Up" ++ [LF]) eq_refl)
    as (records & st & Hrun & Hrec).
  - intros [|n] argv Hn; [lia|]. simpl.
    destruct (decide (List.last argv [] = js "web")).
    + eexists. split; [reflexivity|].
      exists (label_map {[ COMPOSE_PREFIX ++ js ".project" := js "shop" ]}).
      split; [vm_compute; reflexivity|discriminate].
    + eexists. split; [reflexivity|].
      exists (label_map ∅). split; [vm_compute; reflexivity|discriminate].
  - exists records, st. split; [exact Hrun|].
    intros i record Hi.
    destruct (Hrec i record Hi) as (n & out & v & H1 & _ & H3 & H4 & _).
    exists n, out, v. split; [exact H1|]. split; [exact H3|exact H4].
Defined.

(** C9. For the container [c] with status [Up] whose inspect output is the
    label map with project [p], service [s], configuration files [f] and
    working directory [w], the listing gives exactly the record with name
    [c], status [Up] and the compose sub-record made of [s], [p], [f] and
    [w]. *)
Theorem getContainers_round_trip (w : World) (out : jsstring) :
  stdout_of (subprocess w 0 list_all) = Some (js "c,Up" ++ [LF]) ->
  stdout_of (subprocess w 1 (inspect (js "c"))) = Some out ->
  JSON_parse out
  = Normal
      (label_map
         {[ COMPOSE_PREFIX ++ js ".project" := js "p";
            COMPOSE_PREFIX ++ js ".service" := js "s";
            COMPOSE_PREFIX ++ js ".project.config_files" := js "f";
            COMPOSE_PREFIX ++ js ".project.working_dir" := js "w" ]}) ->
  exists st,
    getContainers w init
    = (Resolved
         [ {[ js "name" := JStr (js "c");
              js "status" := JStr (js "Up");
              js "compose" :=
                JObj {[ js "service" := JStr (js "s");
                        js "project" := JStr (js "p");
                        js "configFiles" := JStr (js "f");
                        js "workingDir" := JStr (js "w") ]} ]} ],
       st).
Proof.
  intros Hps Hout Hv.
  rewrite (getContainers_printed w _ [out] Hps).
  - change (parse_listing (js "c,Up" ++ [LF]))
      with [ {| name := js "c"; status := Some (js "Up") |} ].
    cbn [build_records]. rewrite Hv.
    unfold mbind at 1. cbn [Completion_bind lookup list_lookup].
    rewrite container_record_of by discriminate.
    eexists. unfold mbind, mret. cbn [Completion_bind Completion_ret lift].
    unfold mret, Async_ret. apply f_equal2; [|reflexivity].
    apply f_equal. apply (f_equal (fun record => [record])).
    vm_compute. reflexivity.
  - change (parse_listing (js "c,Up" ++ [LF]))
      with [ {| name := js "c"; status := Some (js "Up") |} ].
    unfold inspect_outputs. simpl. rewrite Hout. reflexivity.
Qed.

Lemma getContainers_round_trip_witness :
  JSON_parse
    (labels_text
       [(COMPOSE_PREFIX ++ js ".project", js "p");
        (COMPOSE_PREFIX ++ js ".service", js "s");
        (COMPOSE_PREFIX ++ js ".project.config_files", js "f");
        (COMPOSE_PREFIX ++ js ".project.working_dir", js "w")])
  = Normal
      (label_map
         {[ COMPOSE_PREFIX ++ js ".project" := js "p";
            COMPOSE_PREFIX ++ js ".service" := js "s";
            COMPOSE_PREFIX ++ js ".project.config_files" := js "f";
            COMPOSE_PREFIX ++ js ".project.working_dir" := js "w" ]}) /\
  exists st,
    getContainers
      (docker_host (js "c,Up" ++ [LF])
         (fun _ =>
            labels_text
              [(COMPOSE_PREFIX ++ js ".project", js "p");
               (COMPOSE_PREFIX ++ js ".service", js "s");
               (COMPOSE_PREFIX ++ js ".project.config_files", js "f");
               (COMPOSE_PREFIX ++ js ".project.working_dir", js "w")])) init
    = (Resolved
         [ {[ js "name" := JStr (js "c");
              js "status" := JStr (js "Up");
              js "compose" :=
                JObj {[ js "service" := JStr (js "s");
                        js "project" := JStr (js "p");
                        js "configFiles" := JStr (js "f");
                        js "workingDir" := JStr (js "w") ]} ]} ],
       st).
Proof.
  split; [vm_compute; reflexivity|].
  apply (getContainers_round_trip
           (docker_host (js "c,Up" ++ [LF])
              (fun _ =>
                 labels_text
                   [(COMPOSE_PREFIX ++ js ".project", js "p");
                    (COMPOSE_PREFIX ++ js ".service", js "s");
                    (COMPOSE_PREFIX ++ js ".project.config_files", js "f");
                    (COMPOSE_PREFIX ++ js ".project.working_dir", js "w")]))
           (labels_text
              [(COMPOSE_PREFIX ++ js ".project", js "p");
               (COMPOSE_PREFIX ++ js ".service", js "s");
               (COMPOSE_PREFIX ++ js ".project.config_files", js "f");
               (COMPOSE_PREFIX ++ js ".project.working_dir", js "w")])).
  - reflexivity.
  - reflexivity.
  - vm_compute. reflexivity.
Defined.

(** ** [execCommand], outcome by outcome *)

(** C2. [execCommand] does not look at the exit status: whenever
    [communicate_utf8_finish] returns [ok = true], which GLib does for a
    child that exits with a status other than zero as well, the callback
    is called with [(true, command text, stdout)] and the promise is
    fulfilled with stdout. A failed [docker] command is reported as a
    success. *)
Theorem execCommand_ignores_exit_status (w : World) (argv : list jsstring)
    (f : Callback) (st : State) (out err : jsstring) (exit_status : Z) :
  subprocess w (launched st) argv = Communicated true out err exit_status ->
  call (execCommand w argv (Some f)) st
  = (Resolved out,
     {| launched := S (launched st);
        trace := trace st
                 ++ [EvSubprocess argv;
                     EvCallback f true (CmdString (join (js " ") argv))
                       out] |}).
Proof.
  intros H. unfold call, execCommand. rewrite H. unfold await, emit. simpl.
  rewrite <- app_assoc. reflexivity.
Qed.

Lemma execCommand_ignores_exit_status_witness :
  subprocess
    (host [js "docker"]
       (fun _ _ =>
          Communicated true []
            (js "Error response from daemon: No such container: nosuch"
             ++ [LF]) 1))
    (launched init) [js "docker"; js "start"; js "nosuch"]
  = Communicated true []
      (js "Error response from daemon: No such container: nosuch" ++ [LF]) 1
  /\
  call (execCommand
          (host [js "docker"]
             (fun _ _ =>
                Communicated true []
                  (js "Error response from daemon: No such container: nosuch"
                   ++ [LF]) 1))
          [js "docker"; js "start"; js "nosuch"] (Some 0)) init
  = (Resolved [],
     {| launched := 1;
        trace := [EvSubprocess [js "docker"; js "start"; js "nosuch"];
                  EvCallback 0 true (CmdString (js "docker start nosuch"))
                    []] |}).
Proof.
  split; [reflexivity|].
  apply (execCommand_ignores_exit_status
           (host [js "docker"]
              (fun _ _ =>
                 Communicated true []
                   (js "Error response from daemon: No such container: nosuch"
                    ++ [LF]) 1))
           [js "docker"; js "start"; js "nosuch"] 0 init []
           (js "Error response from daemon: No such container: nosuch"
            ++ [LF]) 1).
  reflexivity.
Defined.

(** X9. The branch for [ok = false]: the callback gets [(false, command text,
    stderr)] and the promise is rejected with the trimmed stderr, or with
    [GLib.strerror] of the exit status when stderr is empty. *)
Lemma execCommand_not_ok (w : World) (argv : list jsstring) (f : Callback)
    (st : State) (out err : jsstring) (exit_status : Z) :
  subprocess w (launched st) argv = Communicated false out err exit_status ->
  call (execCommand w argv (Some f)) st
  = (Rejected
       (IOErrorEnum (io_error_from_errno w exit_status)
          (if nonempty err then trim err else strerror w exit_status)),
     {| launched := S (launched st);
        trace := trace st
                 ++ [EvSubprocess argv;
                     EvCallback f false (CmdString (join (js " ") argv)) err;
                     EvLogError
                       (IOErrorEnum (io_error_from_errno w exit_status)
                          (if nonempty err then trim err
                           else strerror w exit_status))] |}).
Proof.
  intros H. unfold call, execCommand. rewrite H. unfold await, emit. simpl.
  rewrite <- app_assoc. reflexivity.
Qed.

(** C3, as amended. When the program of [argv] cannot be launched
    ([proc.init] throws), [execCommand] is rejected with that spawn error:
    it does not stay pending and is not fulfilled. The error is logged and
    the callback, supplied or not, is not called. *)
Theorem execCommand_spawn_failure (w : World) (argv : list jsstring)
    (callback : option Callback) (st : State) (message : jsstring) :
  subprocess w (launched st) argv = InitThrows message ->
  call (execCommand w argv callback) st
  = (Rejected (SpawnError message),
     {| launched := S (launched st);
        trace := trace st
                 ++ [EvSubprocess argv; EvLogError (SpawnError message)] |}).
Proof.
  intros H. unfold call, execCommand. rewrite H. unfold await, emit. simpl.
  rewrite app_nil_r, <- app_assoc. reflexivity.
Qed.

Lemma execCommand_spawn_failure_witness :
  subprocess
    (host [] (fun _ _ => InitThrows (js "No such file or directory")))
    (launched init) [js "nonexistent-binary"]
  = InitThrows (js "No such file or directory") /\
  call (execCommand
          (host [] (fun _ _ => InitThrows (js "No such file or directory")))
          [js "nonexistent-binary"] (Some 0)) init
  = (Rejected (SpawnError (js "No such file or directory")),
     {| launched := 1;
        trace := [EvSubprocess [js "nonexistent-binary"];
                  EvLogError (SpawnError (js "No such file or directory"))] |}).
Proof.
  split; [reflexivity|].
  apply (execCommand_spawn_failure
           (host [] (fun _ _ => InitThrows (js "No such file or directory")))
           [js "nonexistent-binary"] (Some 0) init
           (js "No such file or directory")).
  reflexivity.
Defined.

(** C3, as first stated, fails: on a spawn failure the supplied callback is
    not called at all. *)
Lemma execCommand_spawn_failure_skips_callback :
  fst (call (execCommand
               (host []
                  (fun _ _ => InitThrows (js "No such file or directory")))
               [js "nonexistent-binary"] (Some 0)) init)
  = Rejected (SpawnError (js "No such file or directory")) /\
  ~ exists output,
      (0, false, CmdString (js "nonexistent-binary"), output)
      ∈ callbacks
          (trace
             (snd (call (execCommand
                           (host []
                              (fun _ _ =>
                                 InitThrows (js "No such file or directory")))
                           [js "nonexistent-binary"] (Some 0)) init))).
Proof.
  split; [reflexivity|].
  intros (output & H). vm_compute in H. inversion H.
Qed.

(** ** [runCommand] *)

Lemma emit_emit a b st : emit b (emit a st) = emit (a ++ b) st.
Proof. unfold emit. simpl. rewrite app_assoc. reflexivity. Qed.

Lemma probe_run w ids st :
  probe w ids st
  = (Resolved (List.map (fun id => (id, find_program_in_path w id)) ids),
     emit (List.map EvFindProgram ids) st).
Proof.
  revert st. induction ids as [|id ids IH]; intros st; simpl.
  - rewrite emit_nil. reflexivity.
  - unfold mbind, Async_bind, tell. rewrite IH, emit_emit. reflexivity.
Qed.

Lemma terminal_prefix_none w :
  (forall id, id ∈ terminal_ids -> find_program_in_path w id = false) ->
  terminal_prefix (valid_terminals w) = None.
Proof.
  intros H. unfold valid_terminals, terminal_ids in *. simpl.
  rewrite !H by (vm_compute; set_solver). vm_compute. reflexivity.
Qed.

Lemma terminal_prefix_some w :
  (exists id, id ∈ terminal_ids /\ find_program_in_path w id = true) ->
  exists cmd, terminal_prefix (valid_terminals w) = Some cmd.
Proof.
  intros (id & Hid & Hfound).
  unfold valid_terminals, terminal_ids in *. simpl.
  assert (Hor : find_program_in_path w (js "x-terminal-emulator") = true
                \/ find_program_in_path w (js "gnome-terminal") = true
                \/ find_program_in_path w (js "ptyxis") = true
                \/ find_program_in_path w (js "kgx") = true).
  { repeat (apply elem_of_cons in Hid as [->|Hid]; [tauto|]).
    apply elem_of_nil in Hid. contradiction. }
  clear Hid Hfound id.
  destruct (find_program_in_path w (js "x-terminal-emulator")),
    (find_program_in_path w (js "gnome-terminal")),
    (find_program_in_path w (js "ptyxis")),
    (find_program_in_path w (js "kgx"));
    try (eexists; vm_compute; reflexivity).
  exfalso. destruct Hor as [H|[H|[H|H]]]; discriminate H.
Qed.

(** Without a terminal, [runCommand] stops after the lookups, whatever the
    command. *)
Lemma runCommand_no_terminal w command containerName f :
  (forall id, id ∈ terminal_ids -> find_program_in_path w id = false) ->
  runCommand w command containerName (Some f) init
  = (Resolved None,
     {| launched := 0;
        trace := List.map EvFindProgram terminal_ids
                 ++ [EvCallback f false command no_terminal_message] |}).
Proof.
  intros H. unfold runCommand, mbind at 1, Async_bind.
  rewrite probe_run.
  change (List.map (fun id => (id, find_program_in_path w id)) terminal_ids)
    with (valid_terminals w).
  rewrite (terminal_prefix_none w H).
  unfold mbind, Async_bind, tell, mret, Async_ret. rewrite emit_emit.
  unfold emit, init. simpl. reflexivity.
Qed.

(** C7. When none of the four terminal emulators is on the path, a dispatch
    of the [exec] or of the [logs] action (the command itself, or the first
    element of the command array) calls the callback once, with
    [success = false] and a message in which every identifier that was
    looked up occurs; it runs no external command. *)
Theorem runCommand_interactive_without_terminal (w : World)
    (command : Command) (containerName : jsstring) (f : Callback) :
  action_id command = Some (js "exec") \/
  action_id command = Some (js "logs") ->
  (forall id, id ∈ terminal_ids -> find_program_in_path w id = false) ->
  exists errMsg st,
    runCommand w command containerName (Some f) init = (Resolved None, st) /\
    callbacks (trace st) = [(f, false, command, errMsg)] /\
    probed (trace st)
    = [js "x-terminal-emulator"; js "gnome-terminal"; js "ptyxis"; js "kgx"] /\
    Forall (fun id => includes id errMsg = true) (probed (trace st)) /\
    Forall (fun ev => is_execution ev = false) (trace st).
Proof.
  intros _ H. eexists. eexists.
  split; [apply (runCommand_no_terminal w command containerName f H)|].
  cbn [trace]. split; [reflexivity|]. split; [reflexivity|].
  split.
  - change (probed _) with terminal_ids.
    repeat constructor; vm_compute; reflexivity.
  - repeat constructor.
Qed.

Lemma runCommand_interactive_without_terminal_witness :
  action_id (CmdArray [js "exec"]) = Some (js "exec") /\
  (forall id, id ∈ terminal_ids ->
     find_program_in_path (host [js "docker"] (fun _ _ => NeverExits)) id
     = false) /\
  exists errMsg st,
    runCommand (host [js "docker"] (fun _ _ => NeverExits))
      (CmdArray [js "exec"]) (js "web") (Some 0) init
    = (Resolved None, st) /\
    callbacks (trace st) = [(0, false, CmdArray [js "exec"], errMsg)] /\
    Forall (fun id => includes id errMsg = true) (probed (trace st)) /\
    Forall (fun ev => is_execution ev = false) (trace st).
Proof.
  assert (H : forall id, id ∈ terminal_ids ->
            find_program_in_path (host [js "docker"] (fun _ _ => NeverExits)) id
            = false).
  { intros id Hid. unfold terminal_ids in Hid.
    repeat (apply elem_of_cons in Hid as [->|Hid]; [vm_compute; reflexivity|]).
    apply elem_of_nil in Hid. contradiction. }
  split; [reflexivity|]. split; [exact H|].
  destruct (runCommand_interactive_without_terminal
              (host [js "docker"] (fun _ _ => NeverExits))
              (CmdArray [js "exec"]) (js "web") 0 (or_introl eq_refl) H)
    as (errMsg & st & H1 & H2 & _ & H4 & H5).
  exists errMsg, st. repeat split; assumption.
Defined.

(** C10. For every command, lifecycle actions such as [start] and [stop]
    included, [runCommand] begins with the four path lookups; when none of
    the terminal emulators is found it then calls the callback with
    [success = false] and returns [undefined]: no subprocess is launched
    and no command line is spawned. *)
Theorem runCommand_terminal_gate (w : World) (command : Command)
    (containerName : jsstring) (f : Callback) :
  (forall id, id ∈ terminal_ids -> find_program_in_path w id = false) ->
  runCommand w command containerName (Some f) init
  = (Resolved None,
     {| launched := 0;
        trace := [EvFindProgram (js "x-terminal-emulator");
                  EvFindProgram (js "gnome-terminal");
                  EvFindProgram (js "ptyxis");
                  EvFindProgram (js "kgx");
                  EvCallback f false command no_terminal_message] |}) /\
  Forall (fun ev => is_execution ev = false)
    (trace (snd (runCommand w command containerName (Some f) init))).
Proof.
  intros H. rewrite (runCommand_no_terminal w command containerName f H).
  split; [reflexivity|]. repeat constructor.
Qed.

Lemma runCommand_terminal_gate_witness :
  (forall id, id ∈ terminal_ids ->
     find_program_in_path (host [js "docker"] (fun _ _ => prints [])) id
     = false) /\
  runCommand (host [js "docker"] (fun _ _ => prints []))
    (CmdString (js "start")) (js "web") (Some 0) init
  = (Resolved None,
     {| launched := 0;
        trace := [EvFindProgram (js "x-terminal-emulator");
                  EvFindProgram (js "gnome-terminal");
                  EvFindProgram (js "ptyxis");
                  EvFindProgram (js "kgx");
                  EvCallback 0 false (CmdString (js "start"))
                    no_terminal_message] |}).
Proof.
  assert (H : forall id, id ∈ terminal_ids ->
            find_program_in_path (host [js "docker"] (fun _ _ => prints [])) id
            = false).
  { intros id Hid. unfold terminal_ids in Hid.
    repeat (apply elem_of_cons in Hid as [->|Hid]; [vm_compute; reflexivity|]).
    apply elem_of_nil in Hid. contradiction. }
  split; [exact H|].
  apply (runCommand_terminal_gate (host [js "docker"] (fun _ _ => prints []))
           (CmdString (js "start")) (js "web") 0 H).
Defined.

Lemma extends_ret {A} (a : A) : extends (mret a).
Proof. intros st. exists []. simpl. rewrite app_nil_r. reflexivity. Qed.

Lemma extends_throw {A} e : extends (@throw A e).
Proof. intros st. exists []. simpl. rewrite app_nil_r. reflexivity. Qed.

Lemma extends_tell evs : extends (tell evs).
Proof. intros st. exists evs. reflexivity. Qed.

Lemma extends_bind {A B} (m : Async A) (k : A -> Async B) :
  extends m -> (forall a, extends (k a)) -> extends (m ≫= k).
Proof.
  intros Hm Hk st. unfold mbind, Async_bind.
  destruct (Hm st) as [evs E]. destruct (m st) as [[a|e|] st']; simpl in *.
  - destruct (Hk a st') as [evs' E']. exists (evs ++ evs').
    rewrite E', E, app_assoc. reflexivity.
  - exists evs. exact E.
  - exists evs. exact E.
Qed.

Lemma extends_call_execCommand w argv callback :
  extends (call (execCommand w argv callback)).
Proof.
  intros st. unfold call, execCommand, await, emit.
  destruct (subprocess w (launched st) argv) as [m| |m|[] out err x];
    simpl; rewrite <- ?app_assoc; eexists; reflexivity.
Qed.

Lemma extends_spawn_line w line : extends (spawn_line w line).
Proof.
  unfold spawn_line. apply extends_bind; [apply extends_tell|]. intros _.
  destruct (spawn_command_line_async w line);
    [apply extends_throw|apply extends_ret].
Qed.

(** X22. Whatever the command and the host, [runCommand] starts with the
    four path lookups. *)
Lemma runCommand_probes_first w command containerName callback :
  exists rest,
    trace (snd (runCommand w command containerName callback init))
    = List.map EvFindProgram terminal_ids ++ rest.
Proof.
  unfold runCommand, mbind at 1, Async_bind. rewrite probe_run.
  match goal with
  | |- context [snd (?k ?st)] =>
      assert (Hk : extends k);
      [|destruct (Hk st) as [evs E]; exists evs; exact E]
  end.
  destruct (terminal_prefix _) as [cmd|].
  - destruct (decide _).
    { apply extends_bind; [apply extends_spawn_line|].
      intros _. apply extends_ret. }
    destruct (decide _).
    { apply extends_bind; [apply extends_spawn_line|].
      intros _. apply extends_ret. }
    destruct (flat command) as [|commands commandArguments];
      [apply extends_throw|].
    apply extends_bind; [apply extends_call_execCommand|].
    intros a. apply extends_ret.
  - destruct callback as [f|]; [|apply extends_throw].
    apply extends_bind; [apply extends_tell|]. intros _. apply extends_ret.
Qed.

Lemma call_execCommand_subprocesses w argv callback st :
  subprocesses (trace (snd (call (execCommand w argv callback) st)))
  = subprocesses (trace st) ++ [argv].
Proof.
  unfold call, execCommand, await, emit, subprocesses.
  destruct (subprocess w (launched st) argv) as [m| |m|[] out err x],
    callback as [f|]; simpl; rewrite ?omap_app; simpl;
    rewrite ?app_nil_r; reflexivity.
Qed.

Lemma split_without_separator sep s : sep ∉ s -> split sep s = [s].
Proof.
  intros H. apply (split_join sep [s]); [discriminate|].
  repeat constructor. exact H.
Qed.

Lemma split_two sep a b :
  sep ∉ a -> sep ∉ b -> split sep (a ++ sep :: b) = [a; b].
Proof.
  intros Ha Hb. apply (split_join sep [a; b]); [discriminate|].
  repeat constructor; assumption.
Qed.

(** C8, as amended. When a terminal emulator is found and the command is
    not dispatched as [exec] or [logs], [runCommand] splits the action id
    at its space characters and launches exactly one subprocess: for an
    action of one word, [docker], the action, the extra arguments, the
    container name; for an action of two words, [docker], the first word,
    the extra arguments, the second word, which stands where the container
    name would. *)
Theorem runCommand_docker_invocation (w : World) (command : Command)
    (action : jsstring) (extra : list jsstring) (containerName : jsstring)
    (callback : option Callback) :
  (exists id, id ∈ terminal_ids /\ find_program_in_path w id = true) ->
  flat command = action :: extra ->
  first_of command <> Some (js "exec") ->
  first_of command <> Some (js "logs") ->
  (SPACE ∉ action ->
   subprocesses
     (trace (snd (runCommand w command containerName callback init)))
   = [[js "docker"; action] ++ extra ++ [containerName]]) /\
  (forall first second,
     action = first ++ SPACE :: second ->
     SPACE ∉ first -> SPACE ∉ second -> second <> [] ->
     subprocesses
       (trace (snd (runCommand w command containerName callback init)))
     = [[js "docker"; first] ++ extra ++ [second]]).
Proof.
  intros Hterm Hflat Hexec Hlogs.
  destruct (terminal_prefix_some w Hterm) as [cmd Hcmd].
  assert (Hrun : forall argv,
            [js "docker"; default [] (split SPACE action !! 0)] ++ extra
            ++ match split SPACE action !! 1 with
               | Some second =>
                   if nonempty second then [second] else [containerName]
               | None => [containerName]
               end = argv ->
            subprocesses
              (trace (snd (runCommand w command containerName callback init)))
            = [argv]).
  { intros argv <-. unfold runCommand, mbind at 1, Async_bind.
    rewrite probe_run.
    change (List.map (fun id => (id, find_program_in_path w id)) terminal_ids)
      with (valid_terminals w).
    rewrite Hcmd.
    destruct (decide (first_of command = Some (js "exec"))); [contradiction|].
    destruct (decide (first_of command = Some (js "logs"))); [contradiction|].
    rewrite Hflat. unfold mbind, Async_bind.
    match goal with
    | |- context [call (execCommand w ?argv callback) ?st] =>
        pose proof (call_execCommand_subprocesses w argv callback st) as E;
        destruct (call (execCommand w argv callback) st) as [[out|e|] st']
    end; simpl in *; rewrite E; reflexivity. }
  split.
  - intros Hno. apply Hrun.
    rewrite (split_without_separator SPACE action Hno). reflexivity.
  - intros first second -> Hf Hs Hne. apply Hrun.
    rewrite (split_two SPACE first second Hf Hs). simpl.
    destruct second; [congruence|reflexivity].
Qed.

Lemma runCommand_docker_invocation_witness :
  (exists id, id ∈ terminal_ids /\
     find_program_in_path
       (host [js "docker"; js "gnome-terminal"] (fun _ _ => prints (js "web")))
       id = true) /\
  subprocesses
    (trace
       (snd (runCommand
               (host [js "docker"; js "gnome-terminal"]
                  (fun _ _ => prints (js "web")))
               (CmdString (js "restart")) (js "web") (Some 0) init)))
  = [[js "docker"; js "restart"; js "web"]].
Proof.
  assert (H : exists id, id ∈ terminal_ids /\
            find_program_in_path
              (host [js "docker"; js "gnome-terminal"]
                 (fun _ _ => prints (js "web"))) id = true).
  { exists (js "gnome-terminal"). split; [|vm_compute; reflexivity].
    unfold terminal_ids. set_solver. }
  split; [exact H|].
  destruct (runCommand_docker_invocation
              (host [js "docker"; js "gnome-terminal"]
                 (fun _ _ => prints (js "web")))
              (CmdString (js "restart")) (js "restart") [] (js "web") (Some 0)
              H eq_refl) as [Hone _]; [discriminate|discriminate|].
  apply Hone. intros Hin. vm_compute in Hin.
  repeat (apply elem_of_cons in Hin as [Hin|Hin]; [discriminate Hin|]).
  inversion Hin.
Defined.

(** C8, as first stated, fails on a host without a terminal emulator: the
    action [restart] for the container [web] launches nothing. *)
Lemma runCommand_restart_without_terminal :
  subprocesses
    (trace
       (snd (runCommand (host [js "docker"] (fun _ _ => prints (js "web")))
               (CmdString (js "restart")) (js "web") (Some 0) init)))
  = [] /\
  [js "docker"; js "restart"; js "web"]
  ∉ subprocesses
      (trace
         (snd (runCommand (host [js "docker"] (fun _ _ => prints (js "web")))
                 (CmdString (js "restart")) (js "web") (Some 0) init))).
Proof.
  split; [vm_compute; reflexivity|].
  intros H. vm_compute in H. inversion H.
Qed.

(** ** Sanity checks of the JavaScript primitives *)

Example split_empty_string : split COMMA [] = [[]].
Proof. reflexivity. Qed.

Example split_trailing_newline :
  split LF (js "a,Up" ++ [LF]) = [js "a,Up"; []].
Proof. vm_compute. reflexivity. Qed.

Example trim_both_ends : trim (js "  Up 2 hours  ") = js "Up 2 hours".
Proof. vm_compute. reflexivity. Qed.

Example join_with_spaces :
  join (js " ") [js "docker"; js "ps"; js "-a"] = js "docker ps -a".
Proof. vm_compute. reflexivity. Qed.

Example JSON_parse_null : JSON_parse (js "null") = Normal JNull.
Proof. vm_compute. reflexivity. Qed.

Example JSON_parse_leading_zero : JSON_parse (js "01") = Throw SyntaxError.
Proof. vm_compute. reflexivity. Qed.

Example JSON_parse_labels :
  JSON_parse (labels_text [(js "a", js "b"); (js "a", js "c")])
  = Normal (label_map {[ js "a" := js "c" ]}).
Proof. vm_compute. reflexivity. Qed.

Example ToBoolean_underflow : ToBoolean (JNum false 1 (-400)%Z) = false.
Proof. vm_compute. reflexivity. Qed.

(** ** More on the dispatcher *)

(** Every action of the menu other than [exec] and [logs] is one word, or
    [compose] and one more word: the two shapes the dispatcher handles. *)
Lemma lifecycle_actions_shape :
  Forall
    (fun action =>
       action = js "exec" \/ action = js "logs" \/
       SPACE ∉ action \/
       exists second,
         action = (js "compose" ++ SPACE :: second) /\
         (SPACE ∉ second) /\ second <> [])
    (List.map fst dockerCommandsToLabels).
Proof.
  assert (Hno : forall s, forallb (fun c => negb (N.eqb c SPACE)) s = true ->
                  SPACE ∉ s).
  { intros s Hs Hin. rewrite forallb_forall in Hs.
    apply list_elem_of_In, Hs in Hin. rewrite N.eqb_refl in Hin.
    discriminate Hin. }
  unfold dockerCommandsToLabels. simpl.
  repeat (constructor;
    [first
       [ left; reflexivity
       | right; left; reflexivity
       | right; right; left; apply Hno; vm_compute; reflexivity
       | right; right; right; eexists;
         split; [vm_compute; reflexivity|];
         split; [apply Hno; vm_compute; reflexivity|discriminate] ]|]).
  constructor.
Qed.

(** With [kgx] on the path, the [exec] action opens a shell in the
    container inside that terminal, through one command line and no
    subprocess of its own; [kgx] is preferred to the other terminals. *)
Lemma runCommand_exec_in_kgx (w : World) (extra : list jsstring)
    (containerName : jsstring) (callback : option Callback) :
  find_program_in_path w (js "kgx") = true ->
  spawn_command_line_async w
    (js "kgx -e 'docker exec -it " ++ containerName ++ js " sh; exec $SHELL'")
  = None ->
  runCommand w (CmdArray (js "exec" :: extra)) containerName callback init
  = (Resolved None,
     {| launched := 0;
        trace := List.map EvFindProgram terminal_ids
                 ++ [EvSpawnAsync
                       (js "kgx -e 'docker exec -it " ++ containerName
                        ++ js " sh; exec $SHELL'")] |}).
Proof.
  intros Hkgx Hspawn. unfold runCommand, mbind at 1, Async_bind.
  rewrite probe_run.
  assert (E : terminal_prefix
                (List.map (fun id => (id, find_program_in_path w id))
                   terminal_ids) = Some [js "kgx"; js "-e"]).
  { unfold terminal_ids. simpl. rewrite Hkgx.
    generalize (find_program_in_path w (js "x-terminal-emulator"))
      (find_program_in_path w (js "gnome-terminal"))
      (find_program_in_path w (js "ptyxis")).
    intros a b c. vm_compute. reflexivity. }
  rewrite E.
  destruct (decide (first_of (CmdArray (js "exec" :: extra))
                    = Some (js "exec"))) as [_|Hne];
    [|exfalso; apply Hne; reflexivity].
  assert (El : join (js " ")
                 ([js "kgx"; js "-e"]
                  ++ [js "'docker exec -it " ++ containerName
                      ++ js " sh; exec $SHELL'"])
               = js "kgx -e 'docker exec -it " ++ containerName
                 ++ js " sh; exec $SHELL'").
  { reflexivity. }
  rewrite El. unfold spawn_line, mbind, Async_bind, tell, mret, Async_ret.
  rewrite Hspawn, emit_emit. reflexivity.
Qed.

Lemma runCommand_exec_in_kgx_witness :
  find_program_in_path
    (host [js "docker"; js "kgx"; js "ptyxis"] (fun _ _ => NeverExits))
    (js "kgx") = true /\
  runCommand
    (host [js "docker"; js "kgx"; js "ptyxis"] (fun _ _ => NeverExits))
    (CmdArray [js "exec"]) (js "web") (Some 0) init
  = (Resolved None,
     {| launched := 0;
        trace := List.map EvFindProgram terminal_ids
                 ++ [EvSpawnAsync
                       (js "kgx -e 'docker exec -it " ++ js "web"
                        ++ js " sh; exec $SHELL'")] |}).
Proof.
  split; [vm_compute; reflexivity|].
  apply (runCommand_exec_in_kgx
           (host [js "docker"; js "kgx"; js "ptyxis"] (fun _ _ => NeverExits))
           [] (js "web") (Some 0)).
  - vm_compute. reflexivity.
  - reflexivity.
Defined.

Lemma execCommand_not_ok_witness :
  subprocess
    (host [js "docker"]
       (fun _ _ => Communicated false [] (js " no such container " ++ [LF]) 1))
    (launched init) [js "docker"; js "stop"; js "web"]
  = Communicated false [] (js " no such container " ++ [LF]) 1 /\
  fst (call (execCommand
               (host [js "docker"]
                  (fun _ _ =>
                     Communicated false []
                       (js " no such container " ++ [LF]) 1))
               [js "docker"; js "stop"; js "web"] (Some 0)) init)
  = Rejected (IOErrorEnum 0 (js "no such container")).
Proof.
  split; [reflexivity|].
  pose proof (execCommand_not_ok
                (host [js "docker"]
                   (fun _ _ =>
                      Communicated false [] (js " no such container " ++ [LF])
                        1))
                [js "docker"; js "stop"; js "web"] 0 init []
                (js " no such container " ++ [LF]) 1 eq_refl) as E.
  apply (f_equal fst) in E. exact E.
Defined.

(** * More properties

    ** Searching a text *)

Lemma starts_with_iff p : forall s,
  starts_with p s = true <-> exists post, s = p ++ post.
Proof.
  induction p as [|a p IH]; intros s; simpl.
  - split; [intros _; exists s; reflexivity|reflexivity].
  - destruct s as [|b s].
    + split; [discriminate|]. intros [post H]. discriminate H.
    + rewrite andb_true_iff, IH, N.eqb_eq. split.
      * intros [-> [post ->]]. exists post. reflexivity.
      * intros [post [= -> ->]]. split; [reflexivity|]. exists post.
        reflexivity.
Qed.

Lemma strip_prefix_iff p : forall s r,
  strip_prefix p s = Some r <-> s = p ++ r.
Proof.
  induction p as [|a p IH]; intros s r; simpl.
  - destruct s; split; congruence.
  - destruct s as [|b s]; [split; discriminate|].
    destruct (N.eqb_spec a b) as [->|Hne].
    + rewrite IH. split; congruence.
    + split; [discriminate|]. intros [= -> _]. congruence.
Qed.

Lemma search_found needle : forall s,
  Z.leb 0 (search needle s) = true
  <-> exists pre post, s = pre ++ needle ++ post.
Proof.
  induction s as [|c r IH]; simpl.
  - destruct (starts_with needle []) eqn:E.
    + split; [|reflexivity]. intros _.
      apply starts_with_iff in E as [post E]. exists [], post. exact E.
    + split; [discriminate|]. intros (pre & post & H). exfalso.
      destruct pre; [|discriminate H]. simpl in H.
      assert (starts_with needle [] = true) as E'
        by (apply starts_with_iff; exists post; exact H).
      congruence.
  - destruct (starts_with needle (c :: r)) eqn:E.
    + split; [|reflexivity]. intros _.
      apply starts_with_iff in E as [post E]. exists [], post. exact E.
    + destruct (Z.ltb_spec (search needle r) 0) as [Hlt|Hge].
      * split; [discriminate|]. intros (pre & post & H). exfalso.
        destruct pre as [|c' pre]; simpl in H.
        -- assert (starts_with needle (c :: r) = true) as E'
             by (apply starts_with_iff; exists post; exact H).
           congruence.
        -- injection H as _ H.
           assert (Z.leb 0 (search needle r) = true) as E'
             by (apply IH; exists pre, post; exact H).
           apply Z.leb_le in E'. lia.
      * split.
        -- intros _. assert (Z.leb 0 (search needle r) = true) as E'
             by (apply Z.leb_le; lia).
           apply IH in E' as (pre & post & ->). exists (c :: pre), post.
           reflexivity.
        -- intros _. apply Z.leb_le. lia.
Qed.

(** X1. When [/bin/ps cax] prints [out], [isDockerRunning] resolves, after
    that one subprocess, with [true] exactly when the text [dockerd]
    occurs somewhere in [out]. *)
Theorem isDockerRunning_iff (w : World) (out : jsstring) :
  stdout_of (subprocess w 0 [js "/bin/ps"; js "cax"]) = Some out ->
  exists running,
    isDockerRunning w init
    = (Resolved running,
       {| launched := 1;
          trace := [EvSubprocess [js "/bin/ps"; js "cax"]] |}) /\
    (running = true <-> exists pre post, out = pre ++ js "dockerd" ++ post).
Proof.
  intros H. exists (Z.leb 0 (search (js "dockerd") out)). split.
  - unfold isDockerRunning, mbind, Async_bind.
    rewrite (call_execCommand_prints w _ init out H). reflexivity.
  - apply search_found.
Qed.

Lemma isDockerRunning_iff_witness :
  stdout_of
    (subprocess
       (host [js "docker"]
          (fun _ _ => prints (js "  812 ?  00:00:07 dockerd" ++ [LF])))
       0 [js "/bin/ps"; js "cax"])
  = Some (js "  812 ?  00:00:07 dockerd" ++ [LF]) /\
  exists running,
    fst (isDockerRunning
           (host [js "docker"]
              (fun _ _ => prints (js "  812 ?  00:00:07 dockerd" ++ [LF])))
           init)
    = Resolved running /\
    (running = true <->
     exists pre post,
       js "  812 ?  00:00:07 dockerd" ++ [LF] = pre ++ js "dockerd" ++ post).
Proof.
  split; [reflexivity|].
  destruct (isDockerRunning_iff
              (host [js "docker"]
                 (fun _ _ => prints (js "  812 ?  00:00:07 dockerd" ++ [LF])))
              (js "  812 ?  00:00:07 dockerd" ++ [LF]) eq_refl)
    as (running & E & Hiff).
  exists running. split; [rewrite E; reflexivity|exact Hiff].
Defined.



(** ** The group of the user *)

Lemma docker_group_here_iff s :
  docker_group_here s = true
  <-> exists a b post,
        s = a :: js "docker" ++ b :: post /\
        is_whitespace a = true /\ is_whitespace b = true.
Proof.
  unfold docker_group_here. destruct s as [|c r].
  - split; [discriminate|]. intros (a & b & post & H & _). discriminate H.
  - rewrite andb_true_iff. split.
    + intros [Hc H].
      destruct (strip_prefix (js "docker") r) as [[|d rest]|] eqn:E;
        try discriminate.
      apply strip_prefix_iff in E. exists c, d, rest. subst r. tauto.
    + intros (a & b & post & H & Ha & Hb).
      assert (H1 : c = a) by congruence.
      assert (H2 : r = js "docker" ++ b :: post) by congruence.
      subst c r. split; [exact Ha|].
      assert (E : strip_prefix (js "docker") (js "docker" ++ b :: post)
                  = Some (b :: post)) by (apply strip_prefix_iff; reflexivity).
      rewrite E. exact Hb.
Qed.

Lemma matches_docker_group_iff : forall s,
  matches_docker_group s = true
  <-> exists pre a b post,
        s = pre ++ a :: js "docker" ++ b :: post /\
        is_whitespace a = true /\ is_whitespace b = true.
Proof.
  induction s as [|c r IH].
  - simpl. split; [discriminate|].
    intros (pre & a & b & post & H & _). destruct pre; discriminate H.
  - cbn [matches_docker_group]. rewrite orb_true_iff, IH, docker_group_here_iff.
    split.
    + intros [(a & b & post & H)|(pre & a & b & post & -> & H)].
      * exists [], a, b, post. exact H.
      * exists (c :: pre), a, b, post. split; [reflexivity|exact H].
    + intros (pre & a & b & post & H & Hab). destruct pre as [|c' pre].
      * left. exists a, b, post. split; [exact H|exact Hab].
      * right. injection H as -> ->. exists pre, a, b, post.
        split; [reflexivity|exact Hab].
Qed.

(** X3. When [groups] prints [output], [isUserInDockerGroup] is [true]
    exactly when [output] holds the text [docker] between two white space
    characters: white space (or a line end) must follow the name, and white
    space must come before it. *)
Theorem isUserInDockerGroup_iff (ses : Session) (output : jsstring) :
  spawn_command_line_sync ses (js "groups " ++ get_user_name ses)
  = Normal output ->
  exists inGroup,
    isUserInDockerGroup ses = Normal inGroup /\
    (inGroup = true <->
     exists pre a b post,
       output = pre ++ a :: js "docker" ++ b :: post /\
       is_whitespace a = true /\ is_whitespace b = true).
Proof.
  intros H. exists (matches_docker_group output). split.
  - unfold isUserInDockerGroup. rewrite H. reflexivity.
  - apply matches_docker_group_iff.
Qed.

Lemma isUserInDockerGroup_iff_witness :
  spawn_command_line_sync (session (js "ann") (js "ann : ann docker" ++ [LF]))
    (js "groups " ++ get_user_name
                       (session (js "ann") (js "ann : ann docker" ++ [LF])))
  = Normal (js "ann : ann docker" ++ [LF]) /\
  exists inGroup,
    isUserInDockerGroup (session (js "ann") (js "ann : ann docker" ++ [LF]))
    = Normal inGroup /\
    (inGroup = true <->
     exists pre a b post,
       js "ann : ann docker" ++ [LF] = pre ++ a :: js "docker" ++ b :: post /\
       is_whitespace a = true /\ is_whitespace b = true).
Proof.
  split; [reflexivity|].
  apply (isUserInDockerGroup_iff
           (session (js "ann") (js "ann : ann docker" ++ [LF]))
           (js "ann : ann docker" ++ [LF])).
  reflexivity.
Defined.

Lemma word_no_match t rest :
  word t -> matches_docker_group (t ++ rest) = matches_docker_group rest.
Proof.
  induction 1 as [|c t Hc Ht IH]; [reflexivity|].
  cbn [app matches_docker_group docker_group_here]. rewrite Hc. exact IH.
Qed.

(** A word followed by white space starts with [p], itself a word, and
    goes on with white space exactly when it is [p]. *)
Lemma strip_word p : forall t d rest,
  word p -> word t -> is_whitespace d = true ->
  match strip_prefix p (t ++ d :: rest) with
  | Some (x :: _) => is_whitespace x
  | _ => false
  end = true <-> t = p.
Proof.
  induction p as [|a p IH]; intros t d rest Hp Ht Hd.
  - simpl. destruct t as [|c t]; simpl.
    + rewrite Hd. tauto.
    + apply Forall_cons in Ht as [Hc _]. rewrite Hc.
      split; discriminate.
  - apply Forall_cons in Hp as [Ha Hp]. destruct t as [|c t]; simpl.
    + destruct (N.eqb_spec a d) as [->|_]; [congruence|].
      split; discriminate.
    + apply Forall_cons in Ht as [Hc Ht].
      destruct (N.eqb_spec a c) as [->|Hne].
      * rewrite (IH t d rest Hp Ht Hd). split; congruence.
      * split; [discriminate|]. congruence.
Qed.

(** The words [ts], each after a space, and a line feed at the end. *)
Lemma matches_spaced_words : forall ts,
  Forall word ts ->
  matches_docker_group
    (foldr (fun t rest => SPACE :: t ++ rest) [LF] ts) = true
  <-> js "docker" ∈ ts.
Proof.
  assert (Hdocker : word (js "docker")) by (repeat constructor).
  induction 1 as [|t ts Ht Hts IH]; simpl foldr.
  - split; [discriminate|]. intros H. apply elem_of_nil in H. contradiction.
  - set (rest := foldr (fun t rest => SPACE :: t ++ rest) [LF] ts) in *.
    assert (Hrest : exists d rest', rest = d :: rest'
                                     /\ is_whitespace d = true).
    { unfold rest. destruct ts; simpl; eexists; eexists;
        (split; [reflexivity|reflexivity]). }
    destruct Hrest as (d & rest' & Erest & Hd).
    cbn [matches_docker_group docker_group_here].
    rewrite (word_no_match t rest Ht), orb_true_iff, IH, elem_of_cons.
    change (is_whitespace SPACE) with true. rewrite andb_true_l, Erest.
    rewrite (strip_word (js "docker") t d rest' Hdocker Ht Hd).
    split; intros [H|H]; auto.
Qed.

Lemma spaced_words_join : forall ts,
  ts <> [] ->
  SPACE :: join [SPACE] ts ++ [LF]
  = foldr (fun t rest => SPACE :: t ++ rest) [LF] ts.
Proof.
  induction ts as [|t ts IH]; [congruence|]. intros _.
  destruct ts as [|t' ts].
  - reflexivity.
  - change (join [SPACE] (t :: t' :: ts))
      with (t ++ SPACE :: join [SPACE] (t' :: ts)).
    change (foldr (fun t rest => SPACE :: t ++ rest) [LF] (t :: t' :: ts))
      with (SPACE :: t
            ++ foldr (fun t rest => SPACE :: t ++ rest) [LF] (t' :: ts)).
    rewrite <- IH by discriminate.
    rewrite <- app_assoc. reflexivity.
Qed.

(** X4. On the output [groups] prints for a user, the user name, a colon
    and the names of the groups separated by spaces, with a line feed at
    the end, [isUserInDockerGroup] is [true] exactly when one of the groups
    is named [docker]: a user named [docker] and groups whose names merely
    contain [docker] do not count. *)
Theorem isUserInDockerGroup_groups (ses : Session) (user : jsstring)
    (groups : list jsstring) :
  get_user_name ses = user ->
  spawn_command_line_sync ses (js "groups " ++ user)
  = Normal (user ++ js " : " ++ join (js " ") groups ++ [LF]) ->
  word user -> Forall word groups ->
  exists inGroup,
    isUserInDockerGroup ses = Normal inGroup /\
    (inGroup = true <-> js "docker" ∈ groups).
Proof.
  intros Huser Hout Hw Hgs.
  exists (matches_docker_group
            (user ++ js " : " ++ join (js " ") groups ++ [LF])).
  split.
  - unfold isUserInDockerGroup. rewrite Huser, Hout. reflexivity.
  - rewrite (word_no_match user _ Hw).
    assert (Hcolon : word (js ":")) by (repeat constructor).
    assert (E : js " : " ++ join (js " ") groups ++ [LF]
                = foldr (fun t rest => SPACE :: t ++ rest) [LF]
                    (js ":" :: match groups with [] => [[]] | _ => groups end)).
    { simpl foldr. change (js " : ") with (SPACE :: js ":" ++ [SPACE]).
      destruct groups as [|g gs]; [reflexivity|].
      rewrite <- spaced_words_join by discriminate.
      simpl. reflexivity. }
    rewrite E, matches_spaced_words.
    + rewrite elem_of_cons. destruct groups as [|g gs].
      * split.
        -- intros [H|H]; [discriminate H|].
           apply list_elem_of_singleton in H. discriminate H.
        -- intros H. apply elem_of_nil in H. contradiction.
      * split; [intros [H|H]; [discriminate H|exact H]|tauto].
    + constructor; [exact Hcolon|].
      destruct groups; [repeat constructor|exact Hgs].
Qed.

Lemma isUserInDockerGroup_groups_witness :
  spawn_command_line_sync
    (session (js "docker")
       (js "docker" ++ js " : "
        ++ join (js " ") [js "docker-users"; js "rootless-docker"] ++ [LF]))
    (js "groups " ++ js "docker")
  = Normal (js "docker" ++ js " : "
            ++ join (js " ") [js "docker-users"; js "rootless-docker"]
            ++ [LF]) /\
  exists inGroup,
    isUserInDockerGroup
      (session (js "docker")
         (js "docker" ++ js " : "
          ++ join (js " ") [js "docker-users"; js "rootless-docker"] ++ [LF]))
    = Normal inGroup /\
    (inGroup = true
     <-> js "docker" ∈ [js "docker-users"; js "rootless-docker"]).
Proof.
  split; [reflexivity|].
  apply (isUserInDockerGroup_groups
           (session (js "docker")
              (js "docker" ++ js " : "
               ++ join (js " ") [js "docker-users"; js "rootless-docker"]
               ++ [LF]))
           (js "docker") [js "docker-users"; js "rootless-docker"]).
  - reflexivity.
  - reflexivity.
  - repeat constructor.
  - repeat constructor.
Defined.

(** ** Every path of [execCommand] *)

(** X5. How [execCommand] ends depends on the child alone: it is fulfilled,
    with the standard output, exactly when [communicate_utf8_finish]
    returns [ok = true]; it stays pending exactly when the child never
    exits, as there is no timeout; it is rejected in every other case. *)
Theorem execCommand_outcome (w : World) (argv : list jsstring)
    (callback : option Callback) (st : State) :
  (forall out,
     fst (call (execCommand w argv callback) st) = Resolved out
     <-> stdout_of (subprocess w (launched st) argv) = Some out) /\
  (fst (call (execCommand w argv callback) st) = Pending
   <-> subprocess w (launched st) argv = NeverExits) /\
  ((exists e, fst (call (execCommand w argv callback) st) = Rejected e)
   <-> fails (subprocess w (launched st) argv) = true).
Proof.
  unfold call, execCommand, await.
  destruct (subprocess w (launched st) argv) as [m| |m|[] out err x]; simpl;
    repeat split; try discriminate; try congruence; eauto;
    try (intros [e H]; discriminate H).
Qed.

(** X6. The callback is called at most once, and only on the paths where
    [communicate_utf8_finish] returns: then it gets the flag [ok], the
    words of [argv] joined by spaces, and the standard output when [ok] is
    set, the standard error otherwise. It is not called when the program
    cannot be launched, when reading the output throws, or while the child
    runs. *)
Theorem execCommand_callback (w : World) (argv : list jsstring)
    (callback : option Callback) (st : State) :
  callbacks (trace (snd (call (execCommand w argv callback) st)))
  = callbacks (trace st)
    ++ match callback, subprocess w (launched st) argv with
       | Some f, Communicated ok out err _ =>
           [(f, ok, CmdString (join (js " ") argv), if ok then out else err)]
       | _, _ => []
       end.
Proof.
  unfold call, execCommand, await, emit, callbacks.
  destruct (subprocess w (launched st) argv) as [m| |m|[] out err x],
    callback as [f|]; simpl; rewrite ?omap_app; simpl;
    rewrite ?app_nil_r; reflexivity.
Qed.

(** X7. Every rejection of [execCommand] is logged, once, with the error
    the promise is rejected with, and nothing is logged on the other
    paths. *)
Theorem execCommand_logs_rejection (w : World) (argv : list jsstring)
    (callback : option Callback) (st : State) :
  logged (trace (snd (call (execCommand w argv callback) st)))
  = logged (trace st)
    ++ match fst (call (execCommand w argv callback) st) with
       | Rejected e => [e]
       | _ => []
       end.
Proof.
  unfold call, execCommand, await, emit, logged.
  destruct (subprocess w (launched st) argv) as [m| |m|[] out err x],
    callback as [f|]; simpl; rewrite ?omap_app; simpl;
    rewrite ?app_nil_r; reflexivity.
Qed.

(** X8. Whatever the child does, one call of [execCommand] launches one
    subprocess, with the argument vector it was given: no retry, and no
    command line is spawned. *)
Theorem execCommand_launches_once (w : World) (argv : list jsstring)
    (callback : option Callback) (st : State) :
  launched (snd (call (execCommand w argv callback) st)) = S (launched st) /\
  subprocesses (trace (snd (call (execCommand w argv callback) st)))
  = subprocesses (trace st) ++ [argv] /\
  spawned (trace (snd (call (execCommand w argv callback) st)))
  = spawned (trace st).
Proof.
  split; [|split; [apply call_execCommand_subprocesses|]].
  - unfold call, execCommand, await, emit.
    destruct (subprocess w (launched st) argv) as [m| |m|[] out err x];
      reflexivity.
  - unfold call, execCommand, await, emit, spawned.
    destruct (subprocess w (launched st) argv) as [m| |m|[] out err x],
      callback as [f|]; simpl; rewrite ?omap_app; simpl;
      rewrite ?app_nil_r; reflexivity.
Qed.

(** ** [getContainers], whatever the inspect calls do *)

Lemma execCommand_eq w argv callback st :
  execCommand w argv callback st
  = (promise_of w (launched st) argv callback,
     {| launched := S (launched st);
        trace := trace st
                 ++ EvSubprocess argv
                    :: logged_at_once w (launched st) argv |}).
Proof.
  unfold promise_of, logged_at_once, execCommand, emit. simpl.
  destruct (subprocess w (launched st) argv) as [m| |m|[] out err x]; simpl;
    rewrite <- ?app_assoc; reflexivity.
Qed.

Lemma launch_each_eq w : forall images st,
  launch_each (fun image => execCommand w (inspect (name image)) None)
    images st
  = (imap (fun i image =>
             promise_of w (launched st + i) (inspect (name image)) None)
       images,
     {| launched := launched st + length images;
        trace := trace st
                 ++ concat
                      (imap (fun i image =>
                               EvSubprocess (inspect (name image))
                               :: logged_at_once w (launched st + i)
                                    (inspect (name image)))
                         images) |}).
Proof.
  induction images as [|image images IH]; intros st.
  - simpl. rewrite Nat.add_0_r, app_nil_r. destruct st. reflexivity.
  - cbn [launch_each]. rewrite execCommand_eq, IH. cbn [launched trace].
    rewrite !imap_cons. cbn [concat length]. rewrite !Nat.add_0_r.
    f_equal.
    + f_equal. apply imap_ext. intros i x _. simpl. f_equal. lia.
    + f_equal; [lia|]. rewrite <- !app_assoc. f_equal. simpl. f_equal.
      f_equal. f_equal. apply imap_ext. intros i x _. simpl.
      replace (launched st + S i) with (S (launched st + i)) by lia.
      reflexivity.
Qed.

(** Once the listing has printed, [getContainers] has launched every
    inspect call before it waits for any of them. *)
Lemma getContainers_fanout w psOut :
  stdout_of (subprocess w 0 list_all) = Some psOut ->
  getContainers w init
  = (await_all
       (imap (fun i image => promise_of w (S i) (inspect (name image)) None)
          (parse_listing psOut))
     ≫= fun containersInfo =>
          lift (build_records (parse_listing psOut) 0 containersInfo))
      {| launched := S (length (parse_listing psOut));
         trace := EvSubprocess list_all
                  :: concat
                       (imap (fun i image =>
                                EvSubprocess (inspect (name image))
                                :: logged_at_once w (S i)
                                     (inspect (name image)))
                          (parse_listing psOut)) |}.
Proof.
  intros Hps. unfold getContainers. unfold mbind at 1, Async_bind at 1.
  rewrite (call_execCommand_prints w list_all init psOut Hps).
  cbn [launched trace init app]. unfold mbind at 1, Async_bind at 1.
  rewrite launch_each_eq. cbn [launched trace app]. reflexivity.
Qed.

Lemma bind_lift_state {A B} (m : Async A) (f : A -> Completion B) st :
  snd ((m ≫= fun a => lift (f a)) st) = snd (m st).
Proof.
  unfold mbind, Async_bind. destruct (m st) as [[a|e|] st']; try reflexivity.
  simpl. destruct (f a); reflexivity.
Qed.

Lemma await_all_state ps st :
  snd (await_all ps st)
  = emit (concat (List.map on_settle (completion_order ps))) st.
Proof.
  unfold await_all. destruct (first_rejection _); [reflexivity|].
  destruct (all_resolved ps); reflexivity.
Qed.

Lemma promise_of_quiet w n argv :
  subprocesses (on_settle (promise_of w n argv None)) = [].
Proof.
  unfold promise_of, execCommand. simpl.
  destruct (subprocess w n argv) as [m| |m|[] out err x]; reflexivity.
Qed.

Lemma Forall_imap_intro {A B} (P : B -> Prop) (l : list A) :
  forall f : nat -> A -> B, (forall i x, P (f i x)) -> Forall P (imap f l).
Proof.
  induction l as [|x l IH]; intros f Hf; [constructor|].
  rewrite imap_cons. constructor; [apply Hf|].
  apply IH. intros i y. apply Hf.
Qed.

Lemma subprocesses_app l1 l2 :
  subprocesses (l1 ++ l2) = subprocesses l1 ++ subprocesses l2.
Proof. apply omap_app. Qed.

Lemma subprocesses_settling ps :
  Forall (fun p => subprocesses (on_settle p) = []) ps ->
  subprocesses (concat (List.map on_settle (completion_order ps))) = [].
Proof.
  intros H. apply completion_order_Forall in H.
  induction H as [|p l Hp _ IH]; [reflexivity|]. simpl.
  rewrite subprocesses_app, Hp, IH. reflexivity.
Qed.

Lemma subprocesses_launch w n argv :
  subprocesses (EvSubprocess argv :: logged_at_once w n argv) = [argv].
Proof.
  unfold logged_at_once. destruct (subprocess w n argv); reflexivity.
Qed.

Lemma subprocesses_launching w : forall images k,
  subprocesses
    (concat
       (imap (fun i image =>
                EvSubprocess (inspect (name image))
                :: logged_at_once w (k + i) (inspect (name image)))
          images))
  = List.map (fun image => inspect (name image)) images.
Proof.
  induction images as [|image images IH]; intros k; [reflexivity|].
  rewrite imap_cons. cbn [concat List.map].
  rewrite subprocesses_app, subprocesses_launch. cbn [app]. f_equal.
  rewrite <- (IH (S k)). f_equal. f_equal. apply imap_ext.
  intros i x _. simpl. replace (k + S i) with (S (k + i)) by lia.
  reflexivity.
Qed.

(** X10. Once the listing has printed, [getContainers] launches one inspect
    call for every line it kept, in the order of the lines, whatever these
    calls do: an inspect call that fails or hangs does not keep the later
    ones from being launched, and nothing else is launched. *)
Theorem getContainers_launches_every_inspect (w : World) (psOut : jsstring) :
  stdout_of (subprocess w 0 list_all) = Some psOut ->
  subprocesses (trace (snd (getContainers w init)))
  = list_all
    :: List.map (fun image => inspect (name image)) (parse_listing psOut).
Proof.
  intros Hps. rewrite (getContainers_fanout w psOut Hps).
  rewrite bind_lift_state, await_all_state. unfold emit. cbn [trace].
  rewrite subprocesses_app, subprocesses_settling.
  - rewrite app_nil_r.
    change (subprocesses (EvSubprocess list_all :: ?l))
      with (list_all :: subprocesses l).
    f_equal. apply (subprocesses_launching w _ 1).
  - apply Forall_imap_intro. intros i image. apply promise_of_quiet.
Qed.

Lemma getContainers_launches_every_inspect_witness :
  stdout_of
    (subprocess
       (host [js "docker"]
          (fun n _ =>
             match n with
             | 0 => prints (js "a,Up" ++ [LF] ++ js "b,Up" ++ [LF])
             | _ => InitThrows (js "No such file or directory")
             end)) 0 list_all)
  = Some (js "a,Up" ++ [LF] ++ js "b,Up" ++ [LF]) /\
  subprocesses
    (trace
       (snd (getContainers
               (host [js "docker"]
                  (fun n _ =>
                     match n with
                     | 0 => prints (js "a,Up" ++ [LF] ++ js "b,Up" ++ [LF])
                     | _ => InitThrows (js "No such file or directory")
                     end)) init)))
  = list_all
    :: List.map (fun image => inspect (name image))
         (parse_listing (js "a,Up" ++ [LF] ++ js "b,Up" ++ [LF])).
Proof.
  split; [reflexivity|].
  apply (getContainers_launches_every_inspect
           (host [js "docker"]
              (fun n _ =>
                 match n with
                 | 0 => prints (js "a,Up" ++ [LF] ++ js "b,Up" ++ [LF])
                 | _ => InitThrows (js "No such file or directory")
                 end))
           (js "a,Up" ++ [LF] ++ js "b,Up" ++ [LF])).
  reflexivity.
Defined.





Lemma promise_of_resolved w n argv callback out :
  settled (promise_of w n argv callback) = Resolved out
  <-> stdout_of (subprocess w n argv) = Some out.
Proof.
  unfold promise_of, execCommand. simpl.
  destruct (subprocess w n argv) as [m| |m|[] o err x]; simpl;
    split; try discriminate; congruence.
Qed.




Lemma all_resolved_outputs w : forall images k outs,
  all_resolved
    (imap (fun i image => promise_of w (k + i) (inspect (name image)) None)
       images) = Some outs ->
  imap (fun i image =>
          stdout_of (subprocess w (k + i) (inspect (name image)))) images
  = List.map Some outs.
Proof.
  induction images as [|image images IH]; intros k outs.
  - simpl. intros [= <-]. reflexivity.
  - rewrite !imap_cons. cbn [all_resolved].
    destruct (settled (promise_of w (k + 0) (inspect (name image)) None))
      as [out| |] eqn:E; try discriminate.
    destruct (all_resolved _) as [vs|] eqn:Evs; [|discriminate].
    intros [= <-]. apply promise_of_resolved in E. cbn [List.map].
    rewrite E. f_equal. rewrite <- (IH (S k) vs).
    + apply imap_ext. intros i x _. simpl.
      replace (k + S i) with (S (k + i)) by lia. reflexivity.
    + rewrite <- Evs. f_equal. apply imap_ext. intros i x _. simpl.
      replace (k + S i) with (S (k + i)) by lia. reflexivity.
Qed.

Lemma build_records_needs_usable images : forall outs i records,
  build_records images i outs = Normal records -> Forall usable_labels outs.
Proof.
  induction outs as [|out outs IH]; intros i records; [constructor|].
  cbn [build_records]. unfold mbind at 1. cbn [Completion_bind].
  destruct (JSON_parse out) as [v|e] eqn:Ev; [|discriminate].
  unfold mbind at 1. cbn [Completion_bind].
  destruct (container_record v (images !! i)) as [r|e] eqn:Er;
    [|discriminate].
  unfold mbind at 1. cbn [Completion_bind].
  destruct (build_records images (S i) outs) as [rs|e] eqn:Ers;
    [|discriminate].
  intros _. constructor; [|eapply IH; eauto].
  exists v. split; [exact Ev|]. intros ->. discriminate Er.
Qed.

(** X12. Once the listing has printed, [getContainers] resolves exactly when
    every inspect call prints and what each prints is JSON other than
    [null]; it then gives as many records as the listing has lines with a
    visible character, never fewer. *)
Theorem getContainers_resolves_iff (w : World) (psOut : jsstring) :
  stdout_of (subprocess w 0 list_all) = Some psOut ->
  ((exists records st, getContainers w init = (Resolved records, st))
   <-> exists outs,
         inspect_outputs w (parse_listing psOut) = List.map Some outs /\
         Forall usable_labels outs) /\
  (forall records st,
     getContainers w init = (Resolved records, st) ->
     length records = length (parse_listing psOut)).
Proof.
  intros Hps.
  assert (Hinv : forall records st,
            getContainers w init = (Resolved records, st) ->
            exists outs,
              inspect_outputs w (parse_listing psOut) = List.map Some outs /\
              Forall usable_labels outs /\
              build_records (parse_listing psOut) 0 outs = Normal records).
  { intros records st. rewrite (getContainers_fanout w psOut Hps).
    unfold mbind, Async_bind, await_all.
    destruct (first_rejection _); [discriminate|].
    destruct (all_resolved _) as [outs|] eqn:E; [|discriminate].
    destruct (build_records (parse_listing psOut) 0 outs) as [rs|e] eqn:Eb;
      [|discriminate].
    simpl. intros [= <- _]. exists outs.
    split; [apply (all_resolved_outputs w _ 1 outs E)|].
    split; [eapply build_records_needs_usable; eauto|exact Eb]. }
  split; [split|].
  - intros (records & st & H).
    destruct (Hinv records st H) as (outs & H1 & H2 & _). eauto.
  - intros (outs & Houts & Hus).
    destruct (getContainers_usable w psOut outs Hps Houts Hus)
      as (records & _ & _ & Hrun).
    specialize (Hrun (settles_at w)). rewrite reschedule_same in Hrun.
    eauto.
  - intros records st H.
    destruct (Hinv records st H) as (outs & H1 & H2 & Hb).
    destruct (build_records_usable (parse_listing psOut) outs 0 H2)
      as (records' & Hb' & Hlen & _).
    assert (records' = records) as -> by congruence.
    rewrite Hlen. apply (f_equal length) in H1.
    unfold inspect_outputs in H1. rewrite length_imap, length_map in H1.
    congruence.
Qed.

Lemma getContainers_resolves_iff_witness :
  stdout_of
    (subprocess (docker_host (js "a,Up" ++ [LF]) (fun _ => js "[1, 2]")) 0
       list_all)
  = Some (js "a,Up" ++ [LF]) /\
  ((exists records st,
      getContainers (docker_host (js "a,Up" ++ [LF]) (fun _ => js "[1, 2]"))
        init = (Resolved records, st))
   <-> exists outs,
         inspect_outputs
           (docker_host (js "a,Up" ++ [LF]) (fun _ => js "[1, 2]"))
           (parse_listing (js "a,Up" ++ [LF])) = List.map Some outs /\
         Forall usable_labels outs).
Proof.
  split; [reflexivity|].
  apply (getContainers_resolves_iff
           (docker_host (js "a,Up" ++ [LF]) (fun _ => js "[1, 2]"))
           (js "a,Up" ++ [LF])).
  reflexivity.
Defined.

(** X13. When the listing does not print (the program cannot be launched,
    reading its output throws, [ok] is not set, or the child never exits),
    [getContainers] launches no inspect call and gives no record; it stays
    pending exactly when the listing never exits and is rejected
    otherwise. *)
Theorem getContainers_listing_failure (w : World) :
  stdout_of (subprocess w 0 list_all) = None ->
  subprocesses (trace (snd (getContainers w init))) = [list_all] /\
  (forall records, fst (getContainers w init) <> Resolved records) /\
  (fst (getContainers w init) = Pending
   <-> subprocess w 0 list_all = NeverExits).
Proof.
  unfold getContainers, mbind, Async_bind, call, execCommand, await. simpl.
  destruct (subprocess w 0 list_all) as [m| |m|[] out err x]; simpl;
    try discriminate; intros _;
    (split; [reflexivity|]); (split; [discriminate|]);
    split; try discriminate; reflexivity.
Qed.

Lemma getContainers_listing_failure_witness :
  stdout_of
    (subprocess
       (host [] (fun _ _ => InitThrows (js "No such file or directory"))) 0
       list_all) = None /\
  subprocesses
    (trace
       (snd (getContainers
               (host []
                  (fun _ _ => InitThrows (js "No such file or directory")))
               init)))
  = [list_all].
Proof.
  split; [reflexivity|].
  apply (getContainers_listing_failure
           (host [] (fun _ _ => InitThrows (js "No such file or directory")))).
  reflexivity.
Defined.

(** ** The lines of a listing *)

Lemma split_app sep b : forall a,
  split sep (a ++ sep :: b) = split sep a ++ split sep b.
Proof.
  induction a as [|c r IH]; simpl.
  - rewrite N.eqb_refl. reflexivity.
  - destruct (N.eqb c sep); [rewrite IH; reflexivity|].
    rewrite IH. pose proof (split_not_nil sep r) as Hn.
    destruct (split sep r) as [|h t]; [congruence|reflexivity].
Qed.

Lemma parse_listing_app a b :
  parse_listing (a ++ LF :: b) = parse_listing a ++ parse_listing b.
Proof.
  unfold parse_listing.
  rewrite split_app, List.filter_app, List.map_app. reflexivity.
Qed.

Lemma getContainerCount_prints w psOut :
  stdout_of (subprocess w 0 list_running) = Some psOut ->
  fst (getContainerCount w init) = Resolved (length (parse_listing psOut)).
Proof.
  intros H. unfold getContainerCount, mbind, Async_bind.
  rewrite (call_execCommand_prints w list_running init psOut H).
  reflexivity.
Qed.

(** X14. The count is taken line by line: when the listing prints two texts
    with a line feed between them, [getContainerCount] gives the sum of
    the counts it gives for each text, so a line feed at the end of the
    listing adds nothing. *)
Theorem getContainerCount_additive (w wa wb : World) (a b : jsstring) :
  stdout_of (subprocess w 0 list_running) = Some (a ++ LF :: b) ->
  stdout_of (subprocess wa 0 list_running) = Some a ->
  stdout_of (subprocess wb 0 list_running) = Some b ->
  exists na nb,
    fst (getContainerCount wa init) = Resolved na /\
    fst (getContainerCount wb init) = Resolved nb /\
    fst (getContainerCount w init) = Resolved (na + nb) /\
    (b = [] -> nb = 0).
Proof.
  intros H Ha Hb.
  exists (length (parse_listing a)), (length (parse_listing b)).
  rewrite (getContainerCount_prints w _ H),
    (getContainerCount_prints wa _ Ha), (getContainerCount_prints wb _ Hb).
  rewrite parse_listing_app, length_app.
  repeat split. intros ->. reflexivity.
Qed.

Lemma getContainerCount_additive_witness :
  exists na nb,
    fst (getContainerCount (host [] (fun _ _ => prints (js "a,Up"))) init)
    = Resolved na /\
    fst (getContainerCount (host [] (fun _ _ => prints (js "b,Up"))) init)
    = Resolved nb /\
    fst (getContainerCount
           (host [] (fun _ _ => prints (js "a,Up" ++ LF :: js "b,Up"))) init)
    = Resolved (na + nb).
Proof.
  destruct (getContainerCount_additive
              (host [] (fun _ _ => prints (js "a,Up" ++ LF :: js "b,Up")))
              (host [] (fun _ _ => prints (js "a,Up")))
              (host [] (fun _ _ => prints (js "b,Up")))
              (js "a,Up") (js "b,Up"))
    as (na & nb & Ha & Hb & Hab & _); try reflexivity.
  exists na, nb. split; [exact Ha|]. split; [exact Hb|exact Hab].
Defined.

(** X15. [getContainerCount] gives a number exactly when the listing of the
    running containers prints, and stays pending exactly when that listing
    never exits; whatever happens it launches that one subprocess and no
    inspect call. *)
Theorem getContainerCount_outcome (w : World) :
  (forall n,
     fst (getContainerCount w init) = Resolved n
     <-> exists psOut,
           stdout_of (subprocess w 0 list_running) = Some psOut /\
           n = length (parse_listing psOut)) /\
  (fst (getContainerCount w init) = Pending
   <-> subprocess w 0 list_running = NeverExits) /\
  subprocesses (trace (snd (getContainerCount w init))) = [list_running].
Proof.
  unfold getContainerCount, mbind, Async_bind, call, execCommand, await.
  simpl.
  destruct (subprocess w 0 list_running) as [m| |m|[] out err x]; simpl;
    (split; [intros n; split;
             [try discriminate; intros [= <-]; eauto
             |intros (psOut & H & ->); try discriminate H;
              injection H as ->; reflexivity]|]);
    (split; [split; try discriminate; reflexivity|reflexivity]).
Qed.

Lemma parse_line_clean line :
  LF ∉ line ->
  (COMMA ∉ name (parse_line line)) /\ (LF ∉ name (parse_line line)) /\
  forall s, status (parse_line line) = Some s -> (COMMA ∉ s) /\ (LF ∉ s).
Proof.
  intros Hlf. unfold parse_line.
  destruct (join_split COMMA line) as [Hj Hf].
  pose proof (split_not_nil COMMA line) as Hn.
  destruct (split COMMA line) as [|first others]; [congruence|]. simpl.
  apply Forall_cons in Hf as [H1 H2].
  assert (Hin : forall x, x ∈ first :: others -> LF ∉ x).
  { intros x Hx Hc. apply Hlf. rewrite <- Hj. clear -Hx Hc.
    revert Hx. generalize (first :: others). intros l.
    induction l as [|y [|z l] IH]; intros Hx.
    - apply elem_of_nil in Hx. contradiction.
    - apply list_elem_of_singleton in Hx as ->. exact Hc.
    - change (join [COMMA] (y :: z :: l))
        with (y ++ [COMMA] ++ join [COMMA] (z :: l)).
      apply elem_of_cons in Hx as [->|Hx].
      + apply elem_of_app. left. exact Hc.
      + apply elem_of_app. right. apply elem_of_app. right. auto. }
  split; [exact H1|]. split; [apply Hin; left|].
  intros s Hs. destruct others as [|second rest]; [discriminate|].
  injection Hs as ->. apply Forall_cons in H2 as [H2 _].
  split; [exact H2|]. apply Hin. right. left.
Qed.

(** X16. No field the listing reads holds a comma or a line feed: this
    holds of the name and of the status of every container
    [getContainers] and [getContainerCount] read from the text the listing
    printed, whatever that text is. *)
Theorem parse_listing_fields (psOut : jsstring) :
  Forall
    (fun image =>
       (COMMA ∉ name image) /\ (LF ∉ name image) /\
       forall s, status image = Some s -> (COMMA ∉ s) /\ (LF ∉ s))
    (parse_listing psOut).
Proof.
  unfold parse_listing. apply Forall_map.
  destruct (join_split LF psOut) as [_ Hf].
  induction Hf as [|line lines Hline Hlines IH]; [constructor|].
  simpl. destruct (nonempty (trim line)); [|exact IH].
  constructor; [|exact IH]. apply parse_line_clean, Hline.
Qed.

(** ** The branches of [runCommand] *)

Lemma terminal_prefix_first_available w :
  terminal_prefix (valid_terminals w) = first_available w.
Proof.
  unfold valid_terminals, first_available, terminal_ids, terminal_preference.
  simpl.
  destruct (find_program_in_path w (js "x-terminal-emulator")),
    (find_program_in_path w (js "gnome-terminal")),
    (find_program_in_path w (js "ptyxis")),
    (find_program_in_path w (js "kgx")); vm_compute; reflexivity.
Qed.

Lemma first_available_none w :
  first_available w = None <->
  forall id, id ∈ terminal_ids -> find_program_in_path w id = false.
Proof.
  unfold first_available, terminal_ids, terminal_preference. simpl. split.
  - intros H id Hid.
    repeat (apply elem_of_cons in Hid as [->|Hid];
            [destruct (find_program_in_path w (js "kgx")),
               (find_program_in_path w (js "ptyxis")),
               (find_program_in_path w (js "gnome-terminal")),
               (find_program_in_path w (js "x-terminal-emulator"));
             try discriminate H; reflexivity|]).
    apply elem_of_nil in Hid. contradiction.
  - intros H. rewrite !H by (vm_compute; set_solver). reflexivity.
Qed.

Lemma runCommand_probed w command containerName callback :
  runCommand w command containerName callback init
  = match first_available w with
    | None =>
        match callback with
        | Some f =>
            (Resolved None,
             emit [EvCallback f false command no_terminal_message] looked_up)
        | None => (Rejected TypeError, looked_up)
        end
    | Some cmd =>
        if decide (first_of command = Some (js "exec")) then
          (_ ← spawn_line w
                 (join (js " ")
                    (cmd ++ [js "'docker exec -it " ++ containerName
                             ++ js " sh; exec $SHELL'"]));
           mret None) looked_up
        else if decide (first_of command = Some (js "logs")) then
          (_ ← spawn_line w
                 (join (js " ")
                    (cmd ++ [js "'docker logs -f --tail 2000 "
                             ++ containerName ++ js "; exec $SHELL' "]));
           mret None) looked_up
        else
          match flat command with
          | [] => (Rejected TypeError, looked_up)
          | commands :: commandArguments =>
              (stdout ← call (execCommand w
                                (docker_words commands commandArguments
                                   containerName) callback);
               mret (Some stdout)) looked_up
          end
    end.
Proof.
  unfold runCommand, mbind at 1, Async_bind. rewrite probe_run.
  change (List.map (fun id => (id, find_program_in_path w id)) terminal_ids)
    with (valid_terminals w).
  rewrite terminal_prefix_first_available.
  assert (E : emit (List.map EvFindProgram terminal_ids) init = looked_up)
    by reflexivity.
  rewrite E.
  destruct (first_available w) as [cmd|].
  - repeat (destruct (decide _); [reflexivity|]).
    destruct (flat command); reflexivity.
  - destruct callback as [f|]; reflexivity.
Qed.

Lemma runCommand_hands_on w command containerName callback cmd action extra :
  first_available w = Some cmd ->
  flat command = action :: extra ->
  first_of command <> Some (js "exec") ->
  first_of command <> Some (js "logs") ->
  runCommand w command containerName callback init
  = (handed_on
       (fst (call (execCommand w (docker_words action extra containerName)
                     callback) looked_up)),
     snd (call (execCommand w (docker_words action extra containerName)
                  callback) looked_up)).
Proof.
  intros Hcmd Hflat Hexec Hlogs. rewrite runCommand_probed, Hcmd.
  destruct (decide _); [contradiction|].
  destruct (decide _); [contradiction|].
  rewrite Hflat. unfold mbind, Async_bind.
  destruct (call _ looked_up) as [[out|e|] st]; reflexivity.
Qed.

Lemma spawn_then_undefined w line st :
  (_ ← spawn_line w line; mret (@None jsstring)) st
  = (match spawn_command_line_async w line with
     | Some message => Rejected (GError message)
     | None => Resolved None
     end, emit [EvSpawnAsync line] st).
Proof.
  unfold spawn_line, mbind, Async_bind, tell.
  destruct (spawn_command_line_async w line); reflexivity.
Qed.

(** X17. [exec] and [logs], given as the first element of an array, run in
    the first terminal found in the order kgx, ptyxis, gnome-terminal,
    x-terminal-emulator. [runCommand] spawns one command line, the words
    of that terminal followed by the quoted shell script, all joined by
    spaces, with the container name pasted in as it is; the line of [logs]
    ends in a space. It launches no subprocess, never calls the callback,
    ignores the other elements of the array, and its result is
    [undefined], or the error [spawn_command_line_async] throws. *)
Theorem runCommand_opens_terminal (w : World) (prefix extra : list jsstring)
    (containerName : jsstring) (callback : option Callback) :
  first_available w = Some prefix ->
  (let line :=
     join (js " ") prefix ++ js " 'docker exec -it " ++ containerName
     ++ js " sh; exec $SHELL'" in
   runCommand w (CmdArray (js "exec" :: extra)) containerName callback init
   = (match spawn_command_line_async w line with
      | Some message => Rejected (GError message)
      | None => Resolved None
      end,
      {| launched := 0;
         trace := List.map EvFindProgram terminal_ids
                  ++ [EvSpawnAsync line] |})) /\
  (let line :=
     join (js " ") prefix ++ js " 'docker logs -f --tail 2000 "
     ++ containerName ++ js "; exec $SHELL' " in
   runCommand w (CmdArray (js "logs" :: extra)) containerName callback init
   = (match spawn_command_line_async w line with
      | Some message => Rejected (GError message)
      | None => Resolved None
      end,
      {| launched := 0;
         trace := List.map EvFindProgram terminal_ids
                  ++ [EvSpawnAsync line] |})).
Proof.
  intros Hcmd.
  assert (Hjoin : forall script,
            join (js " ") (prefix ++ [script])
            = join (js " ") prefix ++ js " " ++ script).
  { intros script.
    assert (Hne : prefix <> []).
    { intros ->. revert Hcmd.
      unfold first_available, terminal_preference. simpl.
      repeat (destruct (find_program_in_path w _); [discriminate|]).
      discriminate. }
    clear Hcmd. induction prefix as [|x [|y r] IH]; [congruence| |].
    - reflexivity.
    - change (join (js " ") ((x :: y :: r) ++ [script]))
        with (x ++ js " " ++ join (js " ") ((y :: r) ++ [script])).
      rewrite IH by discriminate.
      change (join (js " ") (x :: y :: r))
        with (x ++ js " " ++ join (js " ") (y :: r)).
      rewrite <- !app_assoc. reflexivity. }
  split; cbv zeta; rewrite runCommand_probed, Hcmd.
  - destruct (decide _) as [_|Hne]; [|exfalso; apply Hne; reflexivity].
    rewrite spawn_then_undefined, Hjoin. reflexivity.
  - destruct (decide _) as [Heq|_]; [discriminate Heq|].
    destruct (decide _) as [_|Hne]; [|exfalso; apply Hne; reflexivity].
    rewrite spawn_then_undefined, Hjoin. reflexivity.
Qed.

Lemma runCommand_opens_terminal_witness :
  first_available
    (host [js "docker"; js "gnome-terminal"; js "x-terminal-emulator"]
       (fun _ _ => NeverExits))
  = Some [js "gnome-terminal"; js "--"; js "sh"; js "-c"] /\
  runCommand
    (host [js "docker"; js "gnome-terminal"; js "x-terminal-emulator"]
       (fun _ _ => NeverExits))
    (CmdArray [js "logs"]) (js "web") (Some 0) init
  = (Resolved None,
     {| launched := 0;
        trace := List.map EvFindProgram terminal_ids
                 ++ [EvSpawnAsync
                       (js "gnome-terminal -- sh -c"
                        ++ js " 'docker logs -f --tail 2000 " ++ js "web"
                        ++ js "; exec $SHELL' ")] |}).
Proof.
  split; [vm_compute; reflexivity|].
  destruct (runCommand_opens_terminal
              (host [js "docker"; js "gnome-terminal"; js "x-terminal-emulator"]
                 (fun _ _ => NeverExits))
              [js "gnome-terminal"; js "--"; js "sh"; js "-c"] []
              (js "web") (Some 0)) as [_ Hlogs].
  - vm_compute. reflexivity.
  - exact Hlogs.
Defined.

Lemma first_of_string s action :
  1 < length action -> first_of (CmdString s) <> Some action.
Proof.
  intros Hlen H. destruct s as [|c r]; [discriminate|].
  simpl in H. injection H as <-. simpl in Hlen. lia.
Qed.

(** X18. A command given as one string never opens a terminal, [exec] and
    [logs] included: [command[0]] is then one character. With a terminal
    on the path, [runCommand] spawns no command line and launches one
    [docker] subprocess; for a string without a space, that is [docker],
    the string, the container name. *)
Theorem runCommand_string_command (w : World) (prefix : list jsstring)
    (s containerName : jsstring) (callback : option Callback) :
  first_available w = Some prefix ->
  spawned
    (trace (snd (runCommand w (CmdString s) containerName callback init)))
  = [] /\
  subprocesses
    (trace (snd (runCommand w (CmdString s) containerName callback init)))
  = [docker_words s [] containerName] /\
  (SPACE ∉ s -> docker_words s [] containerName
                = [js "docker"; s; containerName]).
Proof.
  intros Hcmd.
  rewrite (runCommand_hands_on w (CmdString s) containerName callback
             prefix s [] Hcmd eq_refl)
    by (apply first_of_string; vm_compute; lia).
  cbn [snd]. split; [|split].
  - unfold call, execCommand, await, emit, spawned, looked_up.
    destruct (subprocess w _ _) as [m| |m|[] out err x],
      callback as [f|]; reflexivity.
  - rewrite call_execCommand_subprocesses. reflexivity.
  - intros Hno. unfold docker_words.
    rewrite (split_without_separator SPACE s Hno). reflexivity.
Qed.

Lemma runCommand_string_command_witness :
  first_available (host [js "kgx"] (fun _ _ => prints [])) = Some
    [js "kgx"; js "-e"] /\
  spawned
    (trace
       (snd (runCommand (host [js "kgx"] (fun _ _ => prints []))
               (CmdString (js "exec")) (js "web") None init)))
  = [] /\
  subprocesses
    (trace
       (snd (runCommand (host [js "kgx"] (fun _ _ => prints []))
               (CmdString (js "exec")) (js "web") None init)))
  = [[js "docker"; js "exec"; js "web"]].
Proof.
  split; [vm_compute; reflexivity|].
  destruct (runCommand_string_command
              (host [js "kgx"] (fun _ _ => prints []))
              [js "kgx"; js "-e"] (js "exec") (js "web") None)
    as (Hs & Hp & _).
  - vm_compute. reflexivity.
  - split; [exact Hs|]. rewrite Hp. vm_compute. reflexivity.
Defined.

Lemma split_first sep a b :
  sep ∉ a -> split sep (a ++ sep :: b) = a :: split sep b.
Proof.
  intros Ha. rewrite split_app, (split_without_separator sep a Ha).
  reflexivity.
Qed.

(** X19. Of the words of an action, only the first two count. With a
    terminal on the path and an action not dispatched as [exec] or [logs],
    the words after the second are dropped, and when the second word is
    empty (the action ends in a space, or has two spaces in a row) the
    container name takes its place. *)
Theorem runCommand_two_words (w : World) (prefix : list jsstring)
    (command : Command) (first rest : jsstring) (extra : list jsstring)
    (containerName : jsstring) (callback : option Callback) :
  first_available w = Some prefix ->
  flat command = (first ++ SPACE :: rest) :: extra ->
  first_of command <> Some (js "exec") ->
  first_of command <> Some (js "logs") ->
  SPACE ∉ first ->
  (forall second more,
     rest = second ++ SPACE :: more -> SPACE ∉ second -> second <> [] ->
     subprocesses
       (trace (snd (runCommand w command containerName callback init)))
     = [[js "docker"; first] ++ extra ++ [second]]) /\
  (rest = [] \/ (exists more, rest = SPACE :: more) ->
   subprocesses
     (trace (snd (runCommand w command containerName callback init)))
   = [[js "docker"; first] ++ extra ++ [containerName]]).
Proof.
  intros Hcmd Hflat Hexec Hlogs Hfirst.
  rewrite (runCommand_hands_on w command containerName callback prefix
             _ extra Hcmd Hflat Hexec Hlogs).
  cbn [snd]. rewrite call_execCommand_subprocesses.
  unfold docker_words. rewrite (split_first SPACE first rest Hfirst).
  split.
  - intros second more -> Hsecond Hne.
    rewrite (split_first SPACE second more Hsecond). simpl.
    destruct second; [congruence|reflexivity].
  - intros [->|[more ->]]; [reflexivity|].
    cbn [split]. rewrite N.eqb_refl. reflexivity.
Qed.

Lemma runCommand_two_words_witness :
  subprocesses
    (trace
       (snd (runCommand (host [js "kgx"] (fun _ _ => prints []))
               (CmdArray [js "compose" ++ SPACE :: js "up -d"; js "--build"])
               (js "web") None init)))
  = [[js "docker"; js "compose"; js "--build"; js "up"]].
Proof.
  destruct (runCommand_two_words
              (host [js "kgx"] (fun _ _ => prints []))
              [js "kgx"; js "-e"]
              (CmdArray [js "compose" ++ SPACE :: js "up -d"; js "--build"])
              (js "compose") (js "up -d") [js "--build"] (js "web") None)
    as [Htwo _].
  - vm_compute. reflexivity.
  - reflexivity.
  - intros H. vm_compute in H. discriminate H.
  - intros H. vm_compute in H. discriminate H.
  - intros H. vm_compute in H.
    repeat (apply elem_of_cons in H as [H|H]; [discriminate H|]).
    inversion H.
  - apply (Htwo (js "up") (js "-d")).
    + vm_compute. reflexivity.
    + intros H. vm_compute in H.
      repeat (apply elem_of_cons in H as [H|H]; [discriminate H|]).
      inversion H.
    + discriminate.
Defined.

(** X20. On its [default] branch [runCommand] hands on the promise of
    [execCommand]: it is fulfilled, with the standard output, exactly when
    the [docker] subprocess prints; it is rejected or stays pending as
    that promise does; the callback is called as [execCommand] calls it,
    with the words of the [docker] invocation joined by spaces; and no
    command line is spawned. *)
Theorem runCommand_hands_on_promise (w : World) (prefix : list jsstring)
    (command : Command) (action : jsstring) (extra : list jsstring)
    (containerName : jsstring) (callback : option Callback) :
  first_available w = Some prefix ->
  flat command = action :: extra ->
  first_of command <> Some (js "exec") ->
  first_of command <> Some (js "logs") ->
  (forall r,
     fst (runCommand w command containerName callback init) = Resolved r
     <-> exists out,
           r = Some out /\
           stdout_of
             (subprocess w 0 (docker_words action extra containerName))
           = Some out) /\
  (fst (runCommand w command containerName callback init) = Pending
   <-> subprocess w 0 (docker_words action extra containerName)
       = NeverExits) /\
  callbacks (trace (snd (runCommand w command containerName callback init)))
  = match callback,
          subprocess w 0 (docker_words action extra containerName) with
    | Some f, Communicated ok out err _ =>
        [(f, ok,
          CmdString
            (join (js " ") (docker_words action extra containerName)),
          if ok then out else err)]
    | _, _ => []
    end.
Proof.
  intros Hcmd Hflat Hexec Hlogs.
  rewrite (runCommand_hands_on w command containerName callback prefix
             action extra Hcmd Hflat Hexec Hlogs).
  cbn [fst snd]. unfold call, execCommand, await, looked_up. cbn [launched].
  destruct (subprocess w 0 (docker_words action extra containerName))
    as [m| |m|[] out err x], callback as [f|]; simpl;
    (split; [intros r; split;
             [try discriminate; intros [= <-]; eauto
             |intros (o & -> & H); try discriminate H;
              injection H as ->; reflexivity]|]);
    (split; [split; try discriminate; reflexivity|reflexivity]).
Qed.

Lemma runCommand_hands_on_promise_witness :
  fst (runCommand
         (host [js "kgx"]
            (fun _ _ => Communicated true (js "web") (js "warning") 1))
         (CmdString (js "stop")) (js "web") (Some 0) init)
  = Resolved (Some (js "web")).
Proof.
  destruct (runCommand_hands_on_promise
              (host [js "kgx"]
                 (fun _ _ => Communicated true (js "web") (js "warning") 1))
              [js "kgx"; js "-e"] (CmdString (js "stop")) (js "stop") []
              (js "web") (Some 0)) as (Hres & _ & _).
  - vm_compute. reflexivity.
  - reflexivity.
  - intros H. vm_compute in H. discriminate H.
  - intros H. vm_compute in H. discriminate H.
  - apply Hres. exists (js "web"). split; reflexivity.
Defined.

(** X21. Two calls end in a [TypeError] with nothing run and no callback
    called: an empty array as the command, when a terminal is on the path
    (there is no action to split); and any command without a callback,
    when no terminal is on the path (there is no function to report
    to). *)
Theorem runCommand_type_errors (w : World) (command : Command)
    (containerName : jsstring) (callback : option Callback) :
  (first_available w <> None /\ command = CmdArray []) \/
  (first_available w = None /\ callback = None) ->
  runCommand w command containerName callback init
  = (Rejected TypeError, looked_up).
Proof.
  intros [[Hcmd ->]|[Hcmd ->]]; rewrite runCommand_probed.
  - destruct (first_available w) as [cmd|]; [|congruence].
    destruct (decide _) as [H|_]; [discriminate H|].
    destruct (decide _) as [H|_]; [discriminate H|]. reflexivity.
  - rewrite Hcmd. reflexivity.
Qed.

Lemma runCommand_type_errors_witness :
  runCommand (host [js "docker"] (fun _ _ => prints []))
    (CmdString (js "start")) (js "web") None init
  = (Rejected TypeError, looked_up).
Proof.
  apply (runCommand_type_errors (host [js "docker"] (fun _ _ => prints []))).
  right. split; vm_compute; reflexivity.
Defined.
